(** * Xpire: the item normaliser, the status engine, the JSON store,
      the routes, the rate limiter, the origin check, the configuration
      and the seed loader of [server/index.js]

    The development is a shallow embedding of [server/index.js].

    - JavaScript strings are sequences of UTF-16 code units ([list N]),
      so that [length], [slice] and [trim] count what the program counts.
    - JavaScript numbers are [NaN], the two infinities, or an exact rational
      in canonical form ([Qc]); every finite double is such a rational.
      Rounding to the nearest double is modelled where the program reads
      an integer of any size ([Number.parseInt]) and nowhere else.  The
      negative zero is not modelled.
    - Values are the JSON values together with [undefined]: what a parsed
      request body, a seed file or a query string can hold.  Objects and
      arrays are compared by reference in JavaScript; the model has no
      references and [strictEq] answers [false] on them.  The result of
      [v ?? d] for a default [d] that is neither [null] nor [undefined] has
      the type [present] of such values; the id and the creation stamp of a
      stored item have that type.
    - A [Date] is its time value: [Some t] for [t] milliseconds since the
      epoch, [None] for an invalid date.
    - What the engine and the operating system supply (Unicode case
      mapping, number printing and reading, date parsing and printing, the
      local time zone) is collected in a record [Host]; every theorem holds
      for all hosts, with the properties of the host it needs as stated
      hypotheses.  [crypto.randomUUID()] is the argument [uuid] of
      [normalizeItem]: the string the call would return.
    - Exceptions are the [Err] results of the [result] monad.
    - The store is the array [items] together with the last contents
      written by [persist].  [create], [update] and [remove] are the
      operations when every write completes; the module [Disk] gives them
      with a write that can fail.  Reading the data file back
      ([ensureLoaded]) is outside the model.  [loadSeedItems] takes what
      reading and parsing the seed file gave as its argument. *)

From Stdlib Require Import Ascii String QArith Qcanon Qround.
From stdpp Require Import gmap strings list numbers sorting pretty.

Close Scope Q_scope.
Close Scope Qc_scope.

(** ** Strings *)

Abbreviation jstring := (list N).

(** An ASCII literal as a JavaScript string. *)
Definition js (s : string) : jstring :=
  (fun a => N_of_ascii a) <$> list_ascii_of_string s.

Fixpoint jstr_eqb (a b : jstring) : bool :=
  match a, b with
  | [], [] => true
  | x :: a', y :: b' => N.eqb x y && jstr_eqb a' b'
  | _, _ => false
  end.

(** WhiteSpace and LineTerminator code units of ECMAScript, the ones
    [String.prototype.trim] removes. *)
Definition isWhiteSpace (c : N) : bool :=
  ((9 <=? c) && (c <=? 13) || (c =? 32) || (c =? 160) || (c =? 0x1680)
   || (0x2000 <=? c) && (c <=? 0x200A)
   || (c =? 0x2028) || (c =? 0x2029) || (c =? 0x202F) || (c =? 0x205F)
   || (c =? 0x3000) || (c =? 0xFEFF))%N.

Fixpoint dropWhile {A} (p : A -> bool) (l : list A) : list A :=
  match l with
  | [] => []
  | x :: l' => if p x then dropWhile p l' else l
  end.

(** [s.trim()] *)
Definition trim (s : jstring) : jstring :=
  reverse (dropWhile isWhiteSpace (reverse (dropWhile isWhiteSpace s))).

(** [s.slice(0, n)] for a length [n] that is a natural number. *)
Definition slice0 (n : nat) (s : jstring) : jstring := take n s.

(** ** Numbers *)

Inductive num :=
| NaN
| PInf
| NInf
| Fin (q : Qc).

Definition ofZ (k : Z) : num := Fin (Qc_of_Z k).

Definition isFinite (n : num) : bool :=
  match n with Fin _ => true | _ => false end.

Definition isNaN (n : num) : bool :=
  match n with NaN => true | _ => false end.

Definition Qc_ltb (a b : Qc) : bool := bool_decide (a < b)%Qc.
Definition Qc_leb (a b : Qc) : bool := bool_decide (a <= b)%Qc.

(** [a < b] *)
Definition numLt (a b : num) : bool :=
  match a, b with
  | NaN, _ | _, NaN => false
  | Fin x, Fin y => Qc_ltb x y
  | NInf, NInf => false
  | NInf, _ => true
  | _, NInf => false
  | PInf, _ => false
  | Fin _, PInf => true
  end.

(** [a <= b] *)
Definition numLe (a b : num) : bool :=
  match a, b with
  | NaN, _ | _, NaN => false
  | Fin x, Fin y => Qc_leb x y
  | NInf, _ => true
  | _, NInf => false
  | _, PInf => true
  | PInf, Fin _ => false
  end.

(** [a === b] on numbers *)
Definition numEq (a b : num) : bool :=
  match a, b with
  | Fin x, Fin y => bool_decide (x = y)
  | PInf, PInf | NInf, NInf => true
  | _, _ => false
  end.

(** [a - b] *)
Definition numSub (a b : num) : num :=
  match a, b with
  | NaN, _ | _, NaN => NaN
  | Fin x, Fin y => Fin (x - y)%Qc
  | PInf, PInf | NInf, NInf => NaN
  | PInf, _ => PInf
  | NInf, _ => NInf
  | Fin _, PInf => NInf
  | Fin _, NInf => PInf
  end.

Definition Qc_zero : Qc := Qc_of_Z 0.

(** [a / b] *)
Definition numDiv (a b : num) : num :=
  match a, b with
  | NaN, _ | _, NaN => NaN
  | Fin x, Fin y =>
      if bool_decide (y = Qc_zero) then
        (if bool_decide (x = Qc_zero) then NaN
         else if Qc_ltb Qc_zero x then PInf else NInf)
      else Fin (x / y)%Qc
  | Fin _, _ => Fin Qc_zero
  | _, Fin y => if Qc_ltb y Qc_zero then (if a is PInf then NInf else PInf) else a
  | _, _ => NaN
  end.

(** [Math.round]: the nearest integer, ties towards plus infinity. *)
Definition mathRound (a : num) : num :=
  match a with
  | Fin q => ofZ (Qfloor (q + Q2Qc (1 # 2))%Qc)
  | _ => a
  end.

(** [Math.min(a, b)] and [Math.max(a, b)] *)
Definition mathMin (a b : num) : num :=
  match a, b with
  | NaN, _ | _, NaN => NaN
  | _, _ => if numLe a b then a else b
  end.

Definition mathMax (a b : num) : num :=
  match a, b with
  | NaN, _ | _, NaN => NaN
  | _, _ => if numLe a b then b else a
  end.

(** ToIntegerOrInfinity on a finite number: truncation towards zero. *)
Definition Qc_trunc (q : Qc) : Z :=
  if Qc_ltb q Qc_zero then Qceiling q else Qfloor q.

(** ** Values *)

#[warnings="-register-all"]
Inductive value :=
| VUndef
| VNull
| VBool (b : bool)
| VNum (n : num)
| VStr (s : jstring)
| VArr (xs : list value)
| VObj (fs : list (jstring * value)).

Abbreviation props := (list (jstring * value)).

(** [v == null], the test behind [v ?? d]. *)
Definition nullish (v : value) : bool :=
  match v with VUndef | VNull => true | _ => false end.

(** A value that is neither [null] nor [undefined]: what [v ?? d] is when
    [d] is such a value. *)
Inductive present :=
| PBool (b : bool)
| PNum (n : num)
| PStr (s : jstring)
| PArr (xs : list value)
| PObj (fs : props).

Definition toValue (p : present) : value :=
  match p with
  | PBool b => VBool b
  | PNum n => VNum n
  | PStr s => VStr s
  | PArr xs => VArr xs
  | PObj fs => VObj fs
  end.
Coercion toValue : present >-> value.

Definition presence (v : value) : option present :=
  match v with
  | VUndef | VNull => None
  | VBool b => Some (PBool b)
  | VNum n => Some (PNum n)
  | VStr s => Some (PStr s)
  | VArr xs => Some (PArr xs)
  | VObj fs => Some (PObj fs)
  end.

(** [v ?? d] *)
Definition orElse (v : value) (d : present) : present :=
  match presence v with
  | Some p => p
  | None => d
  end.

(** [!v] *)
Definition falsy (v : value) : bool :=
  match v with
  | VUndef | VNull | VBool false | VStr [] | VNum NaN => true
  | VNum (Fin q) => bool_decide (q = Qc_zero)
  | _ => false
  end.

(** [typeof v === "object"] *)
Definition typeofObject (v : value) : bool :=
  match v with VNull | VArr _ | VObj _ => true | _ => false end.

Definition isArray (v : value) : bool :=
  match v with VArr _ => true | _ => false end.

(** [a === b].  Two objects or arrays are equal only when they are the same
    reference, which the model cannot express: the answer is [false]. *)
Definition strictEq (a b : value) : bool :=
  match a, b with
  | VUndef, VUndef | VNull, VNull => true
  | VBool x, VBool y => bool_decide (x = y)
  | VNum x, VNum y => numEq x y
  | VStr x, VStr y => jstr_eqb x y
  | _, _ => false
  end.

(** [o.k] on the own properties of an object: [undefined] when absent. *)
Fixpoint getProp (k : jstring) (fs : props) : value :=
  match fs with
  | [] => VUndef
  | (k', v) :: fs' => if jstr_eqb k k' then v else getProp k fs'
  end.

Definition hasProp (k : jstring) (fs : props) : bool :=
  existsb (fun kv => jstr_eqb k kv.1) fs.

(** [o.k = v] as the object literal and the spread do it: an existing
    property keeps its place, a new one goes last. *)
Fixpoint setProp (k : jstring) (v : value) (fs : props) : props :=
  match fs with
  | [] => [(k, v)]
  | (k', v') :: fs' =>
      if jstr_eqb k k' then (k, v) :: fs' else (k', v') :: setProp k v fs'
  end.

(** ** Exceptions *)

Inductive error :=
| PayloadNotObject   (* Error: item payload must be a JSON object *)
| InvalidExpiresOn   (* Error: expiresOn must be a valid ISO date value *)
| NameRequired       (* Error: name is required *)
| TypeError          (* a value without a callable toString *)
| RangeError.        (* toISOString of an invalid date *)

Inductive result (A : Type) :=
| Ok (a : A)
| Err (e : error).
Arguments Ok {A} a.
Arguments Err {A} e.

Definition bindR {A B} (m : result A) (k : A -> result B) : result B :=
  match m with Ok a => k a | Err e => Err e end.

Notation "'do' x <- m ; k" := (bindR m (fun x => k))
  (at level 10, x name, m at level 100, k at level 200).

(** ** The host *)

Record Host := {
  (** [String.prototype.toLowerCase] *)
  toLowerCase : jstring -> jstring;
  (** [Number.prototype.toString] *)
  numberToString : num -> jstring;
  (** StringToNumber, what [Number(s)] does on a string *)
  stringToNumber : jstring -> num;
  (** [Date.parse]; [None] is [NaN] *)
  dateParse : jstring -> option Z;
  (** [Date.prototype.toISOString] on a valid time value *)
  toISOString : Z -> jstring;
  (** [setHours(0, 0, 0, 0)] on a valid time value, in the local time zone;
      [None] when the result leaves the range of time values *)
  localMidnight : Z -> option Z;
}.

Abbreviation date := (option Z).

Inductive dateLike :=
| OfValue (v : value)
| OfDate (d : date).

(** ** Conversions *)

(** [parts.join(",")] *)
Definition joinComma (parts : list jstring) : jstring :=
  match parts with
  | [] => []
  | s :: rest => s ++ flat_map (fun t => 44%N :: t) rest
  end.

Section Engine.
Variable h : Host.

(** [v.toString()], and ToString on the elements of an array.  An object
    read from JSON has no callable [toString] of its own: when it has an own
    property of that name the call raises a TypeError.  An array prints its
    elements separated by commas, [null] and [undefined] as nothing. *)
Fixpoint toStringV (v : value) : result jstring :=
  match v with
  | VUndef | VNull => Err TypeError
  | VBool b => Ok (js (if b then "true" else "false"))
  | VNum n => Ok (numberToString h n)
  | VStr s => Ok s
  | VArr xs =>
      do parts <-
        (fix each (l : list value) : result (list jstring) :=
           match l with
           | [] => Ok []
           | x :: l' =>
               do s <- (if nullish x then Ok [] else toStringV x);
               do r <- each l';
               Ok (s :: r)
           end) xs;
      Ok (joinComma parts)
  | VObj fs =>
      if hasProp (js "toString") fs then Err TypeError
      else Ok (js "[object Object]")
  end.

(** [Number(v)] *)
Definition toNumber (v : value) : result num :=
  match v with
  | VUndef => Ok NaN
  | VNull => Ok (ofZ 0)
  | VBool b => Ok (ofZ (if b then 1 else 0))
  | VNum n => Ok n
  | VStr s => Ok (stringToNumber h s)
  | VArr _ | VObj _ => do s <- toStringV v; Ok (stringToNumber h s)
  end.

(** ** Dates *)

Definition maxTime : Z := 8640000000000000.

(** TimeClip *)
Definition timeClip (n : num) : date :=
  match n with
  | Fin q =>
      if Qc_leb (Qc_of_Z (- maxTime)) q && Qc_leb q (Qc_of_Z maxTime)
      then Some (Qc_trunc q) else None
  | _ => None
  end.

(** [new Date(x)] *)
Definition newDate (x : dateLike) : result date :=
  match x with
  | OfDate d => Ok d
  | OfValue (VStr s) => Ok (dateParse h s)
  | OfValue (VArr xs) => do s <- toStringV (VArr xs); Ok (dateParse h s)
  | OfValue (VObj fs) => do s <- toStringV (VObj fs); Ok (dateParse h s)
  | OfValue v => do n <- toNumber v; Ok (timeClip n)
  end.

(** [d.getTime()] *)
Definition getTime (d : date) : num :=
  match d with
  | Some t => ofZ t
  | None => NaN
  end.

(** [d.setHours(0, 0, 0, 0)]; an invalid date stays invalid. *)
Definition setHours0 (d : date) : date :=
  match d with
  | Some t => localMidnight h t
  | None => None
  end.

(** [d.toISOString()] *)
Definition dateToISO (d : date) : result jstring :=
  match d with
  | Some t => Ok (toISOString h t)
  | None => Err RangeError
  end.

Definition startOfDay (dateLike : dateLike) : result date :=
  do date <- newDate dateLike;
  Ok (setHours0 date).

(** ** The status engine *)

Definition MS_PER_DAY : Z := 24 * 60 * 60 * 1000.

Definition daysUntil (expiryDate : dateLike) (now : date) : result num :=
  do today <- startOfDay (OfDate now);
  do expiry <- startOfDay expiryDate;
  Ok (mathRound (numDiv (numSub (getTime expiry) (getTime today)) (ofZ MS_PER_DAY))).

Definition itemStatus (expiryDate : dateLike) (now : date) : result jstring :=
  do daysLeft <- daysUntil expiryDate now;
  if numLt daysLeft (ofZ 0) then Ok (js "expired")
  else if numLe daysLeft (ofZ 7) then Ok (js "expiring")
  else Ok (js "fresh").

(** ** Normalisation *)

Definition normalizeString (input : value) (fallback : jstring)
    (maxLength : nat) (lowercase : bool) : result jstring :=
  do s <- toStringV (orElse input (PStr fallback));
  let value := trim s in
  let limited := slice0 maxLength value in
  Ok (if lowercase then toLowerCase h limited else limited).

End Engine.

(** The object [normalizeItem] returns. *)
Module Item.
Record t := mk {
  id : present;
  name : jstring;
  category : jstring;
  quantity : num;
  expiresOn : jstring;
  notes : jstring;
  createdAt : present;
  updatedAt : jstring;
}.
End Item.
Abbreviation item := Item.t.

(** [input.k] once [input] is known to be an object.  The properties read
    below are none of [Object.prototype]: an object has them only as its
    own. *)
Definition field (k : string) (input : value) : value :=
  match input with
  | VObj fs => getProp (js k) fs
  | _ => VUndef
  end.

Section Normaliser.
Variable h : Host.

Definition normalizeItem (input : value) (now : date) (uuid : jstring)
    : result item :=
  if falsy input || negb (typeofObject input) || isArray input
  then Err PayloadNotObject else
  do expiresOn <- newDate h (OfValue (field "expiresOn" input));
  if isNaN (getTime expiresOn) then Err InvalidExpiresOn else
  do name <- normalizeString h (field "name" input) (js "") 80 false;
  if falsy (VStr name) then Err NameRequired else
  do quantityInput <- toNumber h (field "quantity" input);
  let quantity :=
    if isFinite quantityInput
    then mathMax (ofZ 1) (mathMin (ofZ 999) (mathRound quantityInput))
    else ofZ 1 in
  let id := orElse (field "id" input) (PStr uuid) in
  do category <- normalizeString h (field "category" input) (js "general") 40 true;
  do startOfExpiry <- startOfDay h (OfDate expiresOn);
  do expiresOnIso <- dateToISO h startOfExpiry;
  do notes <- normalizeString h (field "notes" input) (js "") 240 false;
  do createdAt <-
    match presence (field "createdAt" input) with
    | Some created => Ok created
    | None => do s <- dateToISO h now; Ok (PStr s)
    end;
  do updatedAt <- dateToISO h now;
  Ok {| Item.id := id;
        Item.name := name;
        Item.category := category;
        Item.quantity := quantity;
        Item.expiresOn := expiresOnIso;
        Item.notes := notes;
        Item.createdAt := createdAt;
        Item.updatedAt := updatedAt |}.

End Normaliser.

(** ** The store *)

(** A stored item as the object it is, in the order of its properties. *)
Definition itemToObj (it : item) : props :=
  [ (js "id", toValue (Item.id it));
    (js "name", VStr (Item.name it));
    (js "category", VStr (Item.category it));
    (js "quantity", VNum (Item.quantity it));
    (js "expiresOn", VStr (Item.expiresOn it));
    (js "notes", VStr (Item.notes it));
    (js "createdAt", toValue (Item.createdAt it));
    (js "updatedAt", VStr (Item.updatedAt it)) ].

(** The own enumerable properties a spread [...v] copies: those of an
    object, the indices of an array or of a string, none otherwise. *)
Definition indexKey (i : nat) : jstring := js (pretty i).

Definition ownProps (v : value) : props :=
  match v with
  | VObj fs => fs
  | VArr xs => imap (fun i x => (indexKey i, x)) xs
  | VStr s => imap (fun i c => (indexKey i, VStr [c])) s
  | _ => []
  end.

(** [{ ...target, ...v }] *)
Definition spread (target : props) (v : value) : props :=
  fold_left (fun acc kv => setProp kv.1 kv.2 acc) (ownProps v) target.

Record store := mkStore {
  items : list item;            (* the array [items] *)
  file : option (list item);    (* what [persist] wrote last *)
}.

Definition persist (st : store) : store :=
  {| items := items st; file := Some (items st) |}.

(** [items.slice()] *)
Definition list_items (st : store) : list item := items st.

(** [items.findIndex(p)]; [None] is [-1]. *)
Fixpoint findIndex (p : item -> bool) (l : list item) : option nat :=
  match l with
  | [] => None
  | x :: l' => if p x then Some 0 else S <$> findIndex p l'
  end.

(** [{ ...old, ...patch }] *)
Definition patched (old : item) (patch : value) : props :=
  spread (spread [] (VObj (itemToObj old))) patch.

(** The object [update] hands to [normalizeItem]:
    [{ ...items[index], ...patch, id, createdAt: items[index].createdAt }] *)
Definition mergedInput (old : item) (patch id : value) : value :=
  VObj (setProp (js "createdAt") (Item.createdAt old)
         (setProp (js "id") id (patched old patch))).

(** The object [toApiItem] returns, [{ ...item, daysLeft, status }]. *)
Module ApiItem.
Record t := mk {
  base : item;
  daysLeft : num;
  status : jstring;
}.
End ApiItem.
Abbreviation apiItem := ApiItem.t.

Definition apiToObj (a : apiItem) : props :=
  setProp (js "status") (VStr (ApiItem.status a))
    (setProp (js "daysLeft") (VNum (ApiItem.daysLeft a))
      (spread [] (VObj (itemToObj (ApiItem.base a))))).

Section StoreOperations.
Variable h : Host.

Definition create (rawItem : value) (now : date) (uuid : jstring) (st : store)
    : result item * store :=
  match normalizeItem h rawItem now uuid with
  | Err e => (Err e, st)
  | Ok it => (Ok it, persist {| items := items st ++ [it]; file := file st |})
  end.

(** [None] in the result is the [null] of an unknown id. *)
Definition update (id patch : value) (now : date) (uuid : jstring) (st : store)
    : result (option item) * store :=
  match findIndex (fun it => strictEq (Item.id it) id) (items st) with
  | None => (Ok None, st)
  | Some index =>
      match items st !! index with
      | None => (Ok None, st)
      | Some old =>
          match normalizeItem h (mergedInput old patch id) now uuid with
          | Err e => (Err e, st)
          | Ok merged =>
              (Ok (Some merged),
               persist {| items := <[index := merged]> (items st);
                          file := file st |})
          end
      end
  end.

Definition remove (id : value) (st : store) : bool * store :=
  match findIndex (fun it => strictEq (Item.id it) id) (items st) with
  | None => (false, st)
  | Some index =>
      (true, persist {| items := delete index (items st); file := file st |})
  end.

(** ** The read representation *)

Definition toApiItem (it : item) (now : date) : result apiItem :=
  do daysLeft <- daysUntil h (OfValue (VStr (Item.expiresOn it))) now;
  do status <- itemStatus h (OfValue (VStr (Item.expiresOn it))) now;
  Ok {| ApiItem.base := it; ApiItem.daysLeft := daysLeft; ApiItem.status := status |}.

End StoreOperations.

(** ** The route [GET /api/items] *)

Inductive body :=
| ItemList (items : list apiItem) (total : nat)   (* [{ items, total }] *)
| ErrorMessage (error : string).                 (* [{ error }] *)

Record response := mkResponse {
  code : nat;
  payload : body;
}.

Definition allowedStatuses : list jstring :=
  [js "all"; js "fresh"; js "expiring"; js "expired"].

(** [l.map((x) => f(x, now()))]: the [i]-th call of [now()] returns
    [clock i]. *)
Fixpoint mapNow {A B} (f : A -> date -> result B) (clock : nat -> date)
    (i : nat) (l : list A) : result (list B) :=
  match l with
  | [] => Ok []
  | x :: l' =>
      do y <- f x (clock i);
      do ys <- mapNow f clock (S i) l';
      Ok (y :: ys)
  end.

(** [Array.prototype.sort] is stable; for a comparator that orders its
    arguments consistently every stable sort returns the same array, and
    insertion from the right is one. *)
Fixpoint insertBy {A} (cmp : A -> A -> num) (x : A) (l : list A) : list A :=
  match l with
  | [] => [x]
  | y :: l' =>
      if numLt (ofZ 0) (cmp x y) then y :: insertBy cmp x l' else x :: l
  end.

Definition sortBy {A} (cmp : A -> A -> num) (l : list A) : list A :=
  foldr (insertBy cmp) [] l.

Section Route.
Variable h : Host.

(** [new Date(a.expiresOn)] on the string [a.expiresOn] is [Date.parse]. *)
Definition expiryTime (a : apiItem) : num :=
  getTime (dateParse h (Item.expiresOn (ApiItem.base a))).

(** [(a, b) => new Date(a.expiresOn) - new Date(b.expiresOn)] *)
Definition compareExpiry (a b : apiItem) : num :=
  numSub (expiryTime a) (expiryTime b).

(** The handler; [status] is [req.query.status]. *)
Definition getItems (st : store) (clock : nat -> date) (status : value)
    : response :=
  match toStringV h (orElse status (PStr (js "all"))) with
  | Err _ => {| code := 500; payload := ErrorMessage "Internal server error" |}
  | Ok s =>
      let statusFilter := toLowerCase h s in
      if negb (existsb (jstr_eqb statusFilter) allowedStatuses)
      then {| code := 400;
              payload := ErrorMessage
                "status must be one of: all, fresh, expiring, expired" |}
      else
        match mapNow (toApiItem h) clock 0 (list_items st) with
        | Err _ =>
            {| code := 500; payload := ErrorMessage "Internal server error" |}
        | Ok decorated =>
            let allItems := sortBy compareExpiry decorated in
            let filtered :=
              if jstr_eqb statusFilter (js "all") then allItems
              else filter (fun a => ApiItem.status a = statusFilter) allItems in
            {| code := 200; payload := ItemList filtered (length filtered) |}
        end
  end.

End Route.

(** ** The rate limiter *)

Record bucket := mkBucket {
  windowStartMs : Z;
  count : Z;
}.

Record verdict := mkVerdict {
  allowed : bool;
  remaining : Z;
}.

Section RateLimiter.
Variables windowMs maxRequests : Z.

(** The closure [createRateLimiter] returns, with the map [buckets] it
    closes over passed in and out. *)
Definition limiter (ip : jstring) (nowMs : Z) (buckets : gmap jstring bucket)
    : verdict * gmap jstring bucket :=
  let opened :=
    ({| allowed := true; remaining := maxRequests - 1 |},
     <[ip := {| windowStartMs := nowMs; count := 1 |}]> buckets) in
  match buckets !! ip with
  | None => opened
  | Some current =>
      if bool_decide (nowMs - windowStartMs current >= windowMs)%Z then opened
      else if bool_decide (count current >= maxRequests)%Z
      then ({| allowed := false; remaining := 0 |}, buckets)
      else
        let current' :=
          {| windowStartMs := windowStartMs current;
             count := count current + 1 |} in
        ({| allowed := true; remaining := maxRequests - count current' |},
         <[ip := current']> buckets)
  end.

(** The middleware: [Some 429] ends the request, [None] is [next()]. *)
Definition rateLimitMiddleware (identifier : jstring) (nowMs : Z)
    (buckets : gmap jstring bucket) : option nat * gmap jstring bucket :=
  let (result, buckets') := limiter identifier nowMs buckets in
  if negb (allowed result) then (Some 429, buckets') else (None, buckets').

(** The middleware on a run of requests [(ip, time)], oldest first: the
    status each one met, and the buckets at the end. *)
Fixpoint serve (reqs : list (jstring * Z)) (buckets : gmap jstring bucket)
    : list (option nat) * gmap jstring bucket :=
  match reqs with
  | [] => ([], buckets)
  | (ip, t) :: reqs' =>
      let (r, buckets') := rateLimitMiddleware ip t buckets in
      let (rs, buckets'') := serve reqs' buckets' in
      (r :: rs, buckets'')
  end.

End RateLimiter.

(** ** Configuration *)

Definition DEFAULT_ALLOWED_ORIGINS : list jstring :=
  [js "http://localhost:3000"; js "http://127.0.0.1:3000"].

Definition isDecimalDigit (c : N) : bool := ((48 <=? c) && (c <=? 57))%N.

(** The integer the longest prefix of decimal digits denotes; [acc] is what
    has been read, [None] while no digit has. *)
Fixpoint readInteger (s : jstring) (acc : option Z) : option Z :=
  match s with
  | c :: s' =>
      if isDecimalDigit c
      then readInteger s' (Some (10 * default 0 acc + (Z.of_N c - 48)))%Z
      else acc
  | [] => acc
  end.

(** The double nearest to a natural number [m], ties to the even
    significand: exact below [2 ^ 53], and otherwise [m] cut to its 53
    leading bits and rounded. *)
Definition roundToDouble (m : Z) : Z :=
  if (m <? 2 ^ 53)%Z then m else
  let e := (Z.log2 m - 52)%Z in
  let q := (m / 2 ^ e)%Z in
  let r := (m mod 2 ^ e)%Z in
  let half := (2 ^ (e - 1))%Z in
  let q' :=
    if (r <? half)%Z then q
    else if (half <? r)%Z then (q + 1)%Z
    else if Z.even q then q else (q + 1)%Z in
  (q' * 2 ^ e)%Z.

(** The Number value of an integer: the nearest double, an infinity once
    that is [2 ^ 1024]. *)
Definition numberOfInteger (n : Z) : num :=
  let m := roundToDouble (Z.abs n) in
  if (2 ^ 1024 <=? m)%Z then (if (n <? 0)%Z then NInf else PInf)
  else ofZ (if (n <? 0)%Z then - m else m).

(** [Number.parseInt(s, 10)] on a string: leading white space, a sign,
    then the longest prefix of decimal digits; [NaN] when there is none.
    The standard lets an engine read the digits after the twentieth
    significant one as zeros; the model reads every digit. *)
Definition parseInt10 (s : jstring) : num :=
  let trimmed := dropWhile isWhiteSpace s in
  let '(negative, body) :=
    match trimmed with
    | 45%N :: r => (true, r)
    | 43%N :: r => (false, r)
    | _ => (false, trimmed)
    end in
  match readInteger body None with
  | Some n => numberOfInteger (if negative then - n else n)%Z
  | None => NaN
  end.

(** [s.split(",")] and the like: the pieces between the separators. *)
Fixpoint splitOn (sep : N) (s : jstring) : list jstring :=
  match s with
  | [] => [[]]
  | c :: s' =>
      if (c =? sep)%N then [] :: splitOn sep s'
      else match splitOn sep s' with
           | piece :: pieces => (c :: piece) :: pieces
           | [] => [[c]]
           end
  end.

(** [raw] is the value of an environment variable: a string or
    [undefined].  Another value that is not falsy has no [split]. *)
Definition parseAllowedOrigins (raw : value) : result (list jstring) :=
  if falsy raw then Ok DEFAULT_ALLOWED_ORIGINS else
  match raw with
  | VStr s => Ok (filter (fun entry => entry <> []) (trim <$> splitOn 44 s))
  | _ => Err TypeError
  end.

Section Configuration.
Variable h : Host.

Definition parsePositiveInt (raw : value) (fallback : num) : result num :=
  do s <- toStringV h (orElse raw (PStr (js "")));
  let parsed := parseInt10 s in
  Ok (if isFinite parsed && numLt (ofZ 0) parsed then parsed else fallback).

(** The defaults of [createApp] for the window and the limit, from the
    values of [XPIRE_RATE_LIMIT_WINDOW_MS] and
    [XPIRE_RATE_LIMIT_MAX_REQUESTS]. *)
Definition rateLimitWindowMs (env : value) : result num :=
  parsePositiveInt env (ofZ 60000).

Definition rateLimitMax (env : value) : result num :=
  parsePositiveInt env (ofZ 180).

End Configuration.

(** ** The origin check *)

Inductive outcome :=
| Respond (code : nat)   (* the response is sent *)
| Next.                  (* [next()] *)

(** The third middleware of [createApp]: the headers it sets, in order, and
    how it ends.  [origin] is [req.headers.origin], [None] when the request
    has no such header. *)
Definition corsMiddleware (allowedOrigins : list jstring)
    (origin : option jstring) (method : jstring)
    : list (string * jstring) * outcome :=
  let finish (headers : list (string * jstring)) :=
    let headers' :=
      headers
      ++ [ ("Access-Control-Allow-Headers"%string, js "Content-Type");
           ("Access-Control-Allow-Methods"%string,
            js "GET,POST,PATCH,DELETE,OPTIONS") ] in
    if jstr_eqb method (js "OPTIONS") then (headers', Respond 204)
    else (headers', Next) in
  match origin with
  | Some o =>
      if falsy (VStr o) then finish []
      else if negb (bool_decide (o ∈ allowedOrigins)) then ([], Respond 403)
      else finish [ ("Access-Control-Allow-Origin"%string, o);
                    ("Vary"%string, js "Origin") ]
  | None => finish []
  end.

(** The rate limiter and the origin check in the order [createApp]
    installs them: [Some code] ends the request, [None] hands it to the
    routes. *)
Definition guards (windowMs maxRequests : Z) (allowedOrigins : list jstring)
    (identifier : jstring) (nowMs : Z) (origin : option jstring)
    (method : jstring) (buckets : gmap jstring bucket)
    : option nat * gmap jstring bucket :=
  match rateLimitMiddleware windowMs maxRequests identifier nowMs buckets with
  | (Some code, buckets') => (Some code, buckets')
  | (None, buckets') =>
      match corsMiddleware allowedOrigins origin method with
      | (_, Respond code) => (Some code, buckets')
      | (_, Next) => (None, buckets')
      end
  end.

(** ** The routes that write *)

Inductive reply :=
| ItemReply (code : nat) (item : apiItem)   (* [{ item }] *)
| Refused (e : error)                       (* 400, [{ error: e.message }] *)
| NotFound                                  (* 404, [{ error: "Item not found" }] *)
| NoContent.                                (* 204 *)

Definition replyCode (r : reply) : nat :=
  match r with
  | ItemReply code _ => code
  | Refused _ => 400
  | NotFound => 404
  | NoContent => 204
  end.

Section WritingRoutes.
Variable h : Host.

(** [POST /api/items]; [now1] and [now2] are the two readings of the
    clock. *)
Definition postItem (body : value) (now1 now2 : date) (uuid : jstring)
    (st : store) : reply * store :=
  match create h body now1 uuid st with
  | (Err e, st') => (Refused e, st')
  | (Ok created, st') =>
      match toApiItem h created now2 with
      | Ok item => (ItemReply 201 item, st')
      | Err e => (Refused e, st')
      end
  end.

(** [PATCH /api/items/:id]; [id] is [req.params.id], a string. *)
Definition patchItem (id : jstring) (body : value) (now1 now2 : date)
    (uuid : jstring) (st : store) : reply * store :=
  match update h (VStr id) body now1 uuid st with
  | (Err e, st') => (Refused e, st')
  | (Ok None, st') => (NotFound, st')
  | (Ok (Some updated), st') =>
      match toApiItem h updated now2 with
      | Ok item => (ItemReply 200 item, st')
      | Err e => (Refused e, st')
      end
  end.

(** [DELETE /api/items/:id] *)
Definition deleteItem (id : jstring) (st : store) : reply * store :=
  match remove (VStr id) st with
  | (false, st') => (NotFound, st')
  | (true, st') => (NoContent, st')
  end.

End WritingRoutes.

(** ** Writes that fail *)

(** [persist] awaits [fs.mkdir] and [fs.writeFile], and either can reject.
    The operations above are the store when every write completes.  Here
    the argument [writes] of an operation says whether its write completes;
    when it does not, the operation raises after the array has been
    changed.  The field [file] keeps the contents of the last write that
    completed; what a failed write leaves on the disk is not modelled. *)
Inductive raised :=
| Invalid (e : error)   (* [normalizeItem] raised [e] *)
| WriteFailed.          (* [persist] rejected *)

Module Disk.

(** [await persist()]; [None] when it rejects. *)
Definition persist (writes : bool) (st : store) : option store :=
  if writes then Some (persist st) else None.

Section Operations.
Variable h : Host.

Definition create (writes : bool) (rawItem : value) (now : date)
    (uuid : jstring) (st : store) : (raised + item) * store :=
  match normalizeItem h rawItem now uuid with
  | Err e => (inl (Invalid e), st)
  | Ok it =>
      let pushed := {| items := items st ++ [it]; file := file st |} in
      match persist writes pushed with
      | Some st' => (inr it, st')
      | None => (inl WriteFailed, pushed)
      end
  end.

(** [None] in the result is the [null] of an unknown id. *)
Definition update (writes : bool) (id patch : value) (now : date)
    (uuid : jstring) (st : store) : (raised + option item) * store :=
  match findIndex (fun it => strictEq (Item.id it) id) (items st) with
  | None => (inr None, st)
  | Some index =>
      match items st !! index with
      | None => (inr None, st)
      | Some old =>
          match normalizeItem h (mergedInput old patch id) now uuid with
          | Err e => (inl (Invalid e), st)
          | Ok merged =>
              let replaced :=
                {| items := <[index := merged]> (items st);
                   file := file st |} in
              match persist writes replaced with
              | Some st' => (inr (Some merged), st')
              | None => (inl WriteFailed, replaced)
              end
          end
      end
  end.

Definition remove (writes : bool) (id : value) (st : store)
    : (raised + bool) * store :=
  match findIndex (fun it => strictEq (Item.id it) id) (items st) with
  | None => (inr false, st)
  | Some index =>
      let spliced :=
        {| items := delete index (items st); file := file st |} in
      match persist writes spliced with
      | Some st' => (inr true, st')
      | None => (inl WriteFailed, spliced)
      end
  end.

(** What a handler does with its request. *)
Inductive reply :=
| ItemReply (code : nat) (item : apiItem)   (* [{ item }] *)
| Refused (r : raised)      (* 400, [{ error: error.message }] *)
| NotFound                  (* 404, [{ error: "Item not found" }] *)
| NoContent                 (* 204 *)
| Rejected (r : raised).    (* the handler's promise rejects: it sends nothing *)

(** [POST /api/items]: the [catch] answers 400 to whatever was raised. *)
Definition postItem (writes : bool) (body : value) (now1 now2 : date)
    (uuid : jstring) (st : store) : reply * store :=
  match create writes body now1 uuid st with
  | (inl r, st') => (Refused r, st')
  | (inr created, st') =>
      match toApiItem h created now2 with
      | Ok item => (ItemReply 201 item, st')
      | Err e => (Refused (Invalid e), st')
      end
  end.

(** [PATCH /api/items/:id] *)
Definition patchItem (writes : bool) (id : jstring) (body : value)
    (now1 now2 : date) (uuid : jstring) (st : store) : reply * store :=
  match update writes (VStr id) body now1 uuid st with
  | (inl r, st') => (Refused r, st')
  | (inr None, st') => (NotFound, st')
  | (inr (Some updated), st') =>
      match toApiItem h updated now2 with
      | Ok item => (ItemReply 200 item, st')
      | Err e => (Refused (Invalid e), st')
      end
  end.

(** [DELETE /api/items/:id]: the handler has no [catch]. *)
Definition deleteItem (writes : bool) (id : jstring) (st : store)
    : reply * store :=
  match remove writes (VStr id) st with
  | (inl r, st') => (Rejected r, st')
  | (inr false, st') => (NotFound, st')
  | (inr true, st') => (NoContent, st')
  end.

End Operations.

End Disk.

(** ** The seed file *)

(** What reading and parsing the seed file came to. *)
Inductive seedFile :=
| Missing                  (* [readFile] raised with code ENOENT *)
| Unreadable               (* [readFile] raised another error *)
| Malformed                (* [JSON.parse] raised a SyntaxError *)
| Parsed (json : value).

Inductive loadError :=
| ReadFailed
| SyntaxError
| Raised (e : error).

Section Seeds.
Variable h : Host.

(** [new Date(item.createdAt ?? Date.now())]; reading a property of [null]
    or [undefined] raises a TypeError. *)
Definition seedNow (item : value) (nowMs : Z) : result date :=
  match item with
  | VUndef | VNull => Err TypeError
  | _ => newDate h (OfValue (orElse (field "createdAt" item) (PNum (ofZ nowMs))))
  end.

(** [parsed.map((item) => normalizeItem(item, new Date(...)))]: the entry
    at index [i] meets the clock reading [clock i] and the identifier
    [uuids i]. *)
Fixpoint normalizeSeeds (clock : nat -> Z) (uuids : nat -> jstring) (i : nat)
    (entries : list value) : result (list item) :=
  match entries with
  | [] => Ok []
  | entry :: entries' =>
      do now <- seedNow entry (clock i);
      do r <- normalizeItem h entry now (uuids i);
      do rs <- normalizeSeeds clock uuids (S i) entries';
      Ok (r :: rs)
  end.

Definition loadSeedItems (file : seedFile) (clock : nat -> Z)
    (uuids : nat -> jstring) : loadError + list item :=
  match file with
  | Missing => inr []
  | Unreadable => inl ReadFailed
  | Malformed => inl SyntaxError
  | Parsed (VArr entries) =>
      match normalizeSeeds clock uuids 0 entries with
      | Ok seeds => inr seeds
      | Err e => inl (Raised e)
      end
  | Parsed _ => inr []
  end.

End Seeds.

(** ** A sample host

    [utcHost] runs the program on concrete inputs.  It follows ECMAScript,
    with the time zone UTC, on a fragment: [toLowerCase] on Basic Latin,
    Latin-1 and U+0130 (code units outside are left as they are);
    [numberToString] on [NaN], the infinities and the integers below 10^21
    in magnitude (another number prints as the empty string);
    [stringToNumber] on [Infinity] and on the decimal literals with sign,
    fraction and exponent that denote a double exactly (a literal with more
    digits reads as the rational it denotes, where the engine rounds;
    another string reads as [NaN], also the radix prefixes [0x], [0o],
    [0b]); [dateParse] on the ISO forms [YYYY-MM-DD] and
    [YYYY-MM-DDTHH:mm:ss.sssZ] of a calendar date, with four-digit or signed
    six-digit years (another string is unparseable).  The theorems do not
    depend on it; the examples below stay inside the fragment. *)
Module Utc.

Local Open Scope Z_scope.

(** Days since the epoch of a date of the proleptic Gregorian calendar,
    and back. *)
Definition daysFromCivil (y m d : Z) : Z :=
  let y' := if m <=? 2 then y - 1 else y in
  let era := y' / 400 in
  let yoe := y' - era * 400 in
  let mp := if 2 <? m then m - 3 else m + 9 in
  let doy := (153 * mp + 2) / 5 + d - 1 in
  let doe := yoe * 365 + yoe / 4 - yoe / 100 + doy in
  era * 146097 + doe - 719468.

Definition civilFromDays (days : Z) : Z * Z * Z :=
  let z := days + 719468 in
  let era := z / 146097 in
  let doe := z - era * 146097 in
  let yoe := (doe - doe / 1460 + doe / 36524 - doe / 146096) / 365 in
  let doy := doe - (365 * yoe + yoe / 4 - yoe / 100) in
  let mp := (5 * doy + 2) / 153 in
  let d := doy - (153 * mp + 2) / 5 + 1 in
  let m := if mp <? 10 then mp + 3 else mp - 9 in
  let y := yoe + era * 400 in
  (if m <=? 2 then y + 1 else y, m, d).

(** [n] in [w] decimal digits, zero padded. *)
Fixpoint digits (w : nat) (n : Z) : jstring :=
  match w with
  | O => []
  | S w' => digits w' (n / 10) ++ [Z.to_N (48 + n mod 10)]
  end.

Definition isDigit (c : N) : bool := ((48 <=? c) && (c <=? 57))%N.

(** The number a string of decimal digits denotes. *)
Definition readDigits (s : jstring) : option Z :=
  if forallb isDigit s && negb (bool_decide (s = []))
  then Some (fold_left (fun acc c => 10 * acc + (Z.of_N c - 48)) s 0)
  else None.

Definition toISOString (t : Z) : jstring :=
  let '(y, m, d) := civilFromDays (t / 86400000) in
  let ms := t mod 86400000 in
  let year :=
    if (0 <=? y) && (y <=? 9999) then digits 4 y
    else (if y <? 0 then js "-" else js "+") ++ digits 6 (Z.abs y) in
  year ++ js "-" ++ digits 2 m ++ js "-" ++ digits 2 d ++ js "T"
    ++ digits 2 (ms / 3600000) ++ js ":" ++ digits 2 (ms / 60000 mod 60)
    ++ js ":" ++ digits 2 (ms / 1000 mod 60) ++ js "."
    ++ digits 3 (ms mod 1000) ++ js "Z".

(** [expect c k s]: [s] starts with the code unit [c], go on with the rest. *)
Definition expect {A} (c : N) (s : jstring) (k : jstring -> option A) : option A :=
  match s with
  | c' :: s' => if N.eqb c c' then k s' else None
  | [] => None
  end.

(** [field w s k]: the first [w] code units of [s] as a number. *)
Definition number {A} (w : nat) (s : jstring) (k : Z -> jstring -> option A)
    : option A :=
  if bool_decide (w <= length s)%nat
  then match readDigits (take w s) with
       | Some n => k n (drop w s)
       | None => None
       end
  else None.

Definition daysInMonth (y m : Z) : Z :=
  daysFromCivil (if m =? 12 then y + 1 else y) (if m =? 12 then 1 else m + 1) 1
  - daysFromCivil y m 1.

Definition parseTime (s : jstring) : option Z :=
  match s with
  | [] => Some 0
  | _ =>
      expect 84 s (fun s =>
      number 2 s (fun hh s => expect 58 s (fun s =>
      number 2 s (fun mm s => expect 58 s (fun s =>
      number 2 s (fun ss s => expect 46 s (fun s =>
      number 3 s (fun ms s => expect 90 s (fun s =>
      if bool_decide (s = []) && (hh <? 24) && (mm <? 60) && (ss <? 60)
      then Some (((hh * 60 + mm) * 60 + ss) * 1000 + ms)
      else None)))))))))
  end.

Definition parseDate (sign : Z) (w : nat) (s : jstring) : option Z :=
  number w s (fun y s => expect 45 s (fun s =>
  number 2 s (fun m s => expect 45 s (fun s =>
  number 2 s (fun d s =>
  if (1 <=? m) && (m <=? 12) && (1 <=? d) && (d <=? daysInMonth (sign * y) m)
  then match parseTime s with
       | Some ms =>
           let t := daysFromCivil (sign * y) m d * 86400000 + ms in
           if Z.abs t <=? maxTime then Some t else None
       | None => None
       end
  else None))))).

Definition dateParse (s : jstring) : option Z :=
  match s with
  | 43%N :: s' => parseDate 1 6 s'
  | 45%N :: s' => parseDate (-1) 6 s'
  | _ => parseDate 1 4 s
  end.

Definition localMidnight (t : Z) : option Z := Some (t - t mod 86400000).

(** Lower case of one code unit. *)
Definition lowerUnit (c : N) : jstring :=
  if ((65 <=? c) && (c <=? 90))%N then [(c + 32)%N]
  else if ((0xC0 <=? c) && (c <=? 0xDE) && negb (c =? 0xD7))%N then [(c + 32)%N]
  else if (c =? 0x130)%N then [0x69%N; 0x307%N]
  else [c].

Definition toLowerCase (s : jstring) : jstring := flat_map lowerUnit s.

Definition printZ (n : Z) : jstring :=
  if n <? 0 then js "-" ++ js (pretty (Z.to_N (- n))) else js (pretty (Z.to_N n)).

Definition numberToString (n : num) : jstring :=
  match n with
  | NaN => js "NaN"
  | PInf => js "Infinity"
  | NInf => js "-Infinity"
  | Fin q =>
      if bool_decide (Qc_of_Z (Qfloor q) = q)
         && (Z.abs (Qfloor q) <? 10 ^ 21)
      then printZ (Qfloor q) else []
  end.

(** Digits at the head of a string: their value, their number, the rest. *)
Fixpoint leadingDigits (s : jstring) (acc : Z) (n : nat) : Z * nat * jstring :=
  match s with
  | c :: s' =>
      if isDigit c then leadingDigits s' (10 * acc + (Z.of_N c - 48)) (S n)
      else (acc, n, s)
  | [] => (acc, n, [])
  end.

Definition pow10 (e : Z) : Qc :=
  if e <? 0 then (/ Qc_of_Z (10 ^ (- e)))%Qc else Qc_of_Z (10 ^ e).

(** An unsigned decimal literal. *)
Definition readDecimal (s : jstring) : option Qc :=
  let '(ip, ni, s1) := leadingDigits s 0 0 in
  let '(fp, nf, s2) :=
    match s1 with
    | 46%N :: s1' => leadingDigits s1' 0 0
    | _ => (0, 0%nat, s1)
    end in
  if bool_decide (ni + nf = 0)%nat then None else
  let mantissa :=
    (Qc_of_Z (ip * 10 ^ Z.of_nat nf + fp) * pow10 (- Z.of_nat nf))%Qc in
  match s2 with
  | [] => Some mantissa
  | c :: s3 =>
      if ((c =? 101) || (c =? 69))%N then
        let '(esign, s4) :=
          match s3 with
          | 43%N :: r => (1, r)
          | 45%N :: r => (-1, r)
          | _ => (1, s3)
          end in
        let '(e, ne, s5) := leadingDigits s4 0 0 in
        if bool_decide (ne = 0)%nat || negb (bool_decide (s5 = [])) then None
        else Some (mantissa * pow10 (esign * e))%Qc
      else None
  end.

Definition readUnsigned (s : jstring) : option num :=
  if jstr_eqb s (js "Infinity") then Some PInf
  else Fin <$> readDecimal s.

Definition negate (n : num) : num :=
  match n with
  | NaN => NaN
  | PInf => NInf
  | NInf => PInf
  | Fin q => Fin (- q)%Qc
  end.

Definition stringToNumber (s : jstring) : num :=
  match trim s with
  | [] => ofZ 0
  | 43%N :: s' => default NaN (readUnsigned s')
  | 45%N :: s' => default NaN (negate <$> readUnsigned s')
  | s' => default NaN (readUnsigned s')
  end.

End Utc.

Definition utcHost : Host :=
  {| toLowerCase := Utc.toLowerCase;
     numberToString := Utc.numberToString;
     stringToNumber := Utc.stringToNumber;
     dateParse := Utc.dateParse;
     toISOString := Utc.toISOString;
     localMidnight := Utc.localMidnight |}.

(** The same host in a zone one hour east of UTC that moves its clocks
    forward by an hour at 2024-03-31T01:00:00Z: the local day that holds the
    instant, and the instant at which that day began. *)
Module Spring.

Definition clocksChange : Z := 1711846800000.

Definition offsetAt (t : Z) : Z :=
  if (t <? clocksChange)%Z then 3600000%Z else 7200000%Z.

Definition localMidnight (t : Z) : option Z :=
  let wall := (t + offsetAt t)%Z in
  let dayStart := (wall - wall mod 86400000)%Z in
  Some (if (dayStart - 3600000 <? clocksChange)%Z then dayStart - 3600000
        else dayStart - 7200000)%Z.

End Spring.

Definition springHost : Host :=
  {| toLowerCase := Utc.toLowerCase;
     numberToString := Utc.numberToString;
     stringToNumber := Utc.stringToNumber;
     dateParse := Utc.dateParse;
     toISOString := Utc.toISOString;
     localMidnight := Spring.localMidnight |}.

(** ** The vocabulary of the statements *)

(** A run of store operations. *)
Inductive op :=
| Create (rawItem : value) (now : date) (uuid : jstring)
| Update (id patch : value) (now : date) (uuid : jstring)
| Remove (id : value).

Definition step (h : Host) (o : op) (st : store) : store :=
  match o with
  | Create rawItem now uuid => (create h rawItem now uuid st).2
  | Update id patch now uuid => (update h id patch now uuid st).2
  | Remove id => (remove id st).2
  end.

Definition run (h : Host) (ops : list op) (st : store) : store :=
  fold_left (fun st o => step h o st) ops st.

(** No two items of the collection have the same id. *)
Definition uniqueIds (st : store) : Prop := NoDup (Item.id <$> items st).

(** The id [create] gives the new record: the one supplied, or else the
    generated one. *)
Definition assignedId (rawItem : value) (uuid : jstring) : present :=
  orElse (field "id" rawItem) (PStr uuid).

(** Along the run, no [create] assigns an id the collection already has. *)
Fixpoint freshCreates (h : Host) (ops : list op) (st : store) : Prop :=
  match ops with
  | [] => True
  | o :: ops' =>
      match o with
      | Create rawItem _ uuid =>
          assignedId rawItem uuid ∉ (Item.id <$> items st)
      | _ => True
      end
      /\ freshCreates h ops' (step h o st)
  end.

(** The number of requests of [ip] that went past the limiter. *)
Fixpoint admitted (ip : jstring) (reqs : list (jstring * Z))
    (statuses : list (option nat)) : Z :=
  match reqs, statuses with
  | (ip', _) :: reqs', r :: statuses' =>
      ((if jstr_eqb ip ip' && bool_decide (r = None) then 1 else 0)
       + admitted ip reqs' statuses')%Z
  | _, _ => 0%Z
  end.

(** A request that opens a window. *)
Definition opens (windowMs : Z) (ip : jstring) (nowMs : Z)
    (buckets : gmap jstring bucket) : Prop :=
  match buckets !! ip with
  | None => True
  | Some current => (nowMs - windowStartMs current >= windowMs)%Z
  end.


(** The expiry date of a stored item is a string [Date.parse] reads. *)
Definition parses (h : Host) (it : item) : Prop :=
  is_Some (dateParse h (Item.expiresOn it)).







(** Every counter of the limiter lies between 1 and the limit. *)
Definition countsWithin (maxRequests : Z) (buckets : gmap jstring bucket) : Prop :=
  map_Forall (fun _ current => (1 <= count current <= maxRequests)%Z) buckets.


(** The number a string of decimal digits denotes. *)
Definition decimalValue (ds : jstring) : Z :=
  fold_left (fun acc c => (10 * acc + (Z.of_N c - 48))%Z) ds 0%Z.

(** An entry of the allow list as [parseAllowedOrigins] leaves it: not
    empty, trimmed, without a comma. *)
Definition cleanOrigin (entry : jstring) : Prop :=
  entry <> [] /\ trim entry = entry /\ 44%N ∉ entry.

(** The properties [normalizeItem] reads of its input. *)
Definition itemFields : list string :=
  ["id"; "name"; "category"; "quantity"; "expiresOn"; "notes"; "createdAt"]%string.

(** A string whose first character is a decimal digit. *)
Definition startsWithDigit (s : string) : Prop :=
  match s with
  | String c _ => isDecimalDigit (N_of_ascii c) = true
  | EmptyString => False
  end.

(** [process.env.X]: a string, or [undefined] when the variable is not
    set. *)
Definition envValue (e : option jstring) : value :=
  match e with
  | Some s => VStr s
  | None => VUndef
  end.

(** ** Sample inputs *)

Definition sampleUuid : jstring := js "3b241101-e2bb-4255-8caf-4136c566a962".
Definition otherUuid : jstring := js "9f1c2d3e-0a4b-4c5d-8e6f-7a8b9c0d1e2f".

(** 2023-11-14T22:13:20.000Z and a day later. *)
Definition sampleNow : date := Some 1700000000000%Z.
Definition laterNow : date := Some 1700086400000%Z.

(** [{ name: "Milk", expiresOn: "2030-01-01", category: "İ".repeat(40) }]:
    forty times U+0130, LATIN CAPITAL LETTER I WITH DOT ABOVE, whose lower
    case is the two code units U+0069 U+0307. *)
Definition dottedCategoryInput : value :=
  VObj [ (js "name", VStr (js "Milk"));
         (js "expiresOn", VStr (js "2030-01-01"));
         (js "category", VStr (replicate 40 0x130%N)) ].

(** [{ name: "a".repeat(79) + " b", expiresOn: "2030-01-01" }] *)
Definition cutNameInput : value :=
  VObj [ (js "name", VStr (replicate 79 97%N ++ js " b"));
         (js "expiresOn", VStr (js "2030-01-01")) ].

Definition emptyStore : store := {| items := []; file := None |}.

(** [{ id: "milk-1", name: "Milk", expiresOn: "2030-01-01" }] *)
Definition milkInput : value :=
  VObj [ (js "id", VStr (js "milk-1"));
         (js "name", VStr (js "Milk"));
         (js "expiresOn", VStr (js "2030-01-01")) ].

(** What [normalizeItem] makes of [milkInput] at [sampleNow]. *)
Definition milkRecord : item :=
  {| Item.id := PStr (js "milk-1");
     Item.name := js "Milk";
     Item.category := js "general";
     Item.quantity := ofZ 1;
     Item.expiresOn := js "2030-01-01T00:00:00.000Z";
     Item.notes := js "";
     Item.createdAt := PStr (js "2023-11-14T22:13:20.000Z");
     Item.updatedAt := js "2023-11-14T22:13:20.000Z" |}.

(** The same record after [PATCH { quantity: 3 }] a day later. *)
Definition quantityPatch : value := VObj [ (js "quantity", VNum (ofZ 3)) ].

Definition milkRecord3 : item :=
  {| Item.id := PStr (js "milk-1");
     Item.name := js "Milk";
     Item.category := js "general";
     Item.quantity := ofZ 3;
     Item.expiresOn := js "2030-01-01T00:00:00.000Z";
     Item.notes := js "";
     Item.createdAt := PStr (js "2023-11-14T22:13:20.000Z");
     Item.updatedAt := js "2023-11-15T22:13:20.000Z" |}.

Definition milkStore : store :=
  {| items := [milkRecord]; file := Some [milkRecord] |}.

(** [{ name: "Rice", expiresOn: "2030-01-01", quantity: 5000 }] *)
Definition bulkInput : value :=
  VObj [ (js "name", VStr (js "Rice"));
         (js "expiresOn", VStr (js "2030-01-01"));
         (js "quantity", VNum (ofZ 5000)) ].

Definition riceRecord : item :=
  {| Item.id := PStr sampleUuid;
     Item.name := js "Rice";
     Item.category := js "general";
     Item.quantity := ofZ 999;
     Item.expiresOn := js "2030-01-01T00:00:00.000Z";
     Item.notes := js "";
     Item.createdAt := PStr (js "2023-11-14T22:13:20.000Z");
     Item.updatedAt := js "2023-11-14T22:13:20.000Z" |}.



(** [{ name: "Rice", expiresOn: "2030-01-01", quantity: q }] *)
Definition riceInput (q : value) : value :=
  VObj [ (js "name", VStr (js "Rice"));
         (js "expiresOn", VStr (js "2030-01-01"));
         (js "quantity", q) ].

(** A record that expires four days after [sampleNow]. *)
Definition yogurtRecord : item :=
  {| Item.id := PStr otherUuid;
     Item.name := js "Yogurt";
     Item.category := js "dairy";
     Item.quantity := ofZ 2;
     Item.expiresOn := js "2023-11-18T00:00:00.000Z";
     Item.notes := js "";
     Item.createdAt := PStr (js "2023-11-14T22:13:20.000Z");
     Item.updatedAt := js "2023-11-14T22:13:20.000Z" |}.

Definition pantry : store :=
  {| items := [milkRecord; yogurtRecord];
     file := Some [milkRecord; yogurtRecord] |}.

Definition yogurtApi : apiItem :=
  {| ApiItem.base := yogurtRecord;
     ApiItem.daysLeft := ofZ 4;
     ApiItem.status := js "expiring" |}.

Definition milkApi : apiItem :=
  {| ApiItem.base := milkRecord;
     ApiItem.daysLeft := ofZ 2240;
     ApiItem.status := js "fresh" |}.

(** A run of four operations on the empty store. *)
Definition sampleRun : list op :=
  [ Create milkInput sampleNow sampleUuid;
    Create bulkInput laterNow otherUuid;
    Update (VStr (js "milk-1")) quantityPatch laterNow sampleUuid;
    Remove (VStr otherUuid) ].

(** Two addresses and the buckets after three requests. *)
Definition homeIp : jstring := js "10.0.0.7".
Definition officeIp : jstring := js "10.0.0.9".

Definition bucketsAfter : gmap jstring bucket :=
  <[officeIp := {| windowStartMs := 2000; count := 1 |}]>
    {[ homeIp := {| windowStartMs := 1000; count := 2 |} ]}.

(** 2024-03-30T12:00:00.000Z, the day before the clocks of [springHost]
    change. *)
Definition springNow : date := Some 1711800000000%Z.

(** Two records that share the id ["milk-1"], behind one that has another. *)
Definition doubledStore : store :=
  {| items := [yogurtRecord; milkRecord; milkRecord3]; file := None |}.

(** A record whose id is the number 7. *)
Definition numberedRecord : item :=
  {| Item.id := PNum (ofZ 7);
     Item.name := js "Eggs";
     Item.category := js "general";
     Item.quantity := ofZ 12;
     Item.expiresOn := js "2030-01-01T00:00:00.000Z";
     Item.notes := js "";
     Item.createdAt := PStr (js "2023-11-14T22:13:20.000Z");
     Item.updatedAt := js "2023-11-14T22:13:20.000Z" |}.

Definition numberedStore : store :=
  {| items := [numberedRecord]; file := Some [numberedRecord] |}.

(** The body [[1]]: an array. *)
Definition arrayPatch : value := VArr [VNum (ofZ 1)].

(** [milkRecord] with the stamp of an empty patch a day later. *)
Definition milkRecordLater : item :=
  {| Item.id := PStr (js "milk-1");
     Item.name := js "Milk";
     Item.category := js "general";
     Item.quantity := ofZ 1;
     Item.expiresOn := js "2030-01-01T00:00:00.000Z";
     Item.notes := js "";
     Item.createdAt := PStr (js "2023-11-14T22:13:20.000Z");
     Item.updatedAt := js "2023-11-15T22:13:20.000Z" |}.

(** A seed file of one entry, and the record it loads as. *)
Definition seedEntry : value :=
  VObj [ (js "name", VStr (js "Butter"));
         (js "expiresOn", VStr (js "2030-01-01"));
         (js "createdAt", VStr (js "2023-11-14T22:13:20.000Z")) ].

Definition seedRecord : item :=
  {| Item.id := PStr sampleUuid;
     Item.name := js "Butter";
     Item.category := js "general";
     Item.quantity := ofZ 1;
     Item.expiresOn := js "2030-01-01T00:00:00.000Z";
     Item.notes := js "";
     Item.createdAt := PStr (js "2023-11-14T22:13:20.000Z");
     Item.updatedAt := js "2023-11-14T22:13:20.000Z" |}.

(** Two origins of an allow list. *)
Definition shopOrigin : jstring := js "https://shop.example".
Definition homeOrigin : jstring := js "http://localhost:5173".

(** The buckets after one request of [homeIp] at 1000. *)
Definition oneRequest : gmap jstring bucket :=
  {[ homeIp := {| windowStartMs := 1000; count := 1 |} ]}.

(** * Properties *)

(** ** Numbers on integers *)

Lemma numLt_ofZ (a b : Z) : numLt (ofZ a) (ofZ b) = bool_decide (a < b)%Z.
Proof.
  unfold numLt, ofZ, Qc_ltb. apply bool_decide_ext. symmetry. apply Z2Qc_inj_lt.
Qed.

Lemma numLe_ofZ (a b : Z) : numLe (ofZ a) (ofZ b) = bool_decide (a <= b)%Z.
Proof.
  unfold numLe, ofZ, Qc_leb. apply bool_decide_ext. symmetry. apply Z2Qc_inj_le.
Qed.

Lemma numSub_ofZ (a b : Z) : numSub (ofZ a) (ofZ b) = ofZ (a - b).
Proof. unfold numSub, ofZ. by rewrite Z2Qc_inj_sub. Qed.

Lemma numDiv_ofZ_pos (a : Z) (d : positive) :
  numDiv (ofZ a) (ofZ (Z.pos d)) = Fin (Qc_of_Z a / Qc_of_Z (Z.pos d))%Qc.
Proof.
  unfold numDiv, ofZ, Qc_zero.
  rewrite bool_decide_eq_false_2; [done|].
  intros E. apply Z2Qc_inj in E. discriminate.
Qed.

(** Rounding the quotient of two integers. *)
Lemma Qfloor_half_quotient (a : Z) (d : positive) :
  Qfloor (Qc_of_Z a / Qc_of_Z (Z.pos d) + Q2Qc (1 # 2))%Qc
  = ((2 * a + Z.pos d) / (2 * Z.pos d))%Z.
Proof.
  assert (E : Qeq (Qc_of_Z a / Qc_of_Z (Z.pos d) + Q2Qc (1 # 2))%Qc
                  ((2 * a + Z.pos d) # (2 * d))%Q).
  { unfold Qcdiv, Qcplus, Qcmult, Qcinv, Q2Qc; simpl.
    rewrite !Qred_correct.
    unfold Qeq, Qinv; simpl. lia. }
  rewrite E. reflexivity.
Qed.

Lemma mathRound_quotient (a : Z) (d : positive) :
  mathRound (numDiv (ofZ a) (ofZ (Z.pos d)))
  = ofZ ((2 * a + Z.pos d) / (2 * Z.pos d)).
Proof. rewrite numDiv_ofZ_pos. unfold mathRound. by rewrite Qfloor_half_quotient. Qed.

Lemma mathRound_ofZ (k : Z) : mathRound (ofZ k) = ofZ k.
Proof.
  unfold mathRound, ofZ. f_equal. f_equal.
  assert (E : Qeq (Qc_of_Z k + Q2Qc (1 # 2))%Qc ((2 * k + 1) # 2)%Q).
  { unfold Qcplus, Q2Qc; simpl. rewrite !Qred_correct.
    unfold Qeq; simpl. rewrite ?Pos2Z.inj_mul. lia. }
  rewrite E. unfold Qfloor. Z.to_euclidean_division_equations. lia.
Qed.

Lemma ofZ_inj (a b : Z) : ofZ a = ofZ b -> a = b.
Proof. unfold ofZ. intros E. apply Z2Qc_inj. congruence. Qed.

Lemma mathMin_ofZ (a b : Z) : mathMin (ofZ a) (ofZ b) = ofZ (Z.min a b).
Proof.
  change (mathMin (ofZ a) (ofZ b))
    with (if numLe (ofZ a) (ofZ b) then ofZ a else ofZ b).
  rewrite numLe_ofZ. case_bool_decide; f_equal; lia.
Qed.

Lemma mathMax_ofZ (a b : Z) : mathMax (ofZ a) (ofZ b) = ofZ (Z.max a b).
Proof.
  change (mathMax (ofZ a) (ofZ b))
    with (if numLe (ofZ a) (ofZ b) then ofZ b else ofZ a).
  rewrite numLe_ofZ. case_bool_decide; f_equal; lia.
Qed.

(** [Math.max(1, Math.min(999, Math.round(q)))] on a finite number. *)
Lemma clamp_finite (q : Qc) :
  mathMax (ofZ 1) (mathMin (ofZ 999) (mathRound (Fin q)))
  = ofZ (Z.max 1 (Z.min 999 (Qfloor (q + Q2Qc (1 # 2))%Qc))).
Proof. unfold mathRound. by rewrite mathMin_ofZ, mathMax_ofZ. Qed.

(** ** The status engine *)

Section StatusEngine.
Variable h : Host.

Lemma daysUntil_valid expiryDate now (e t : Z) :
  startOfDay h (OfDate now) = Ok (Some t) ->
  startOfDay h expiryDate = Ok (Some e) ->
  daysUntil h expiryDate now
  = Ok (ofZ ((2 * (e - t) + MS_PER_DAY) / (2 * MS_PER_DAY))).
Proof.
  intros Ht He. unfold daysUntil. rewrite Ht, He. cbn [bindR getTime].
  rewrite numSub_ofZ. f_equal. apply (mathRound_quotient (e - t) 86400000).
Qed.

(** The three answers of [itemStatus] are different strings. *)
Lemma status_strings_distinct :
  js "expired" <> js "expiring" /\ js "expired" <> js "fresh"
  /\ js "expiring" <> js "fresh".
Proof. repeat split; discriminate. Qed.

Lemma itemStatus_of_days expiryDate now (k : Z) :
  daysUntil h expiryDate now = Ok (ofZ k) ->
  itemStatus h expiryDate now
  = Ok (if bool_decide (k < 0)%Z then js "expired"
        else if bool_decide (k <= 7)%Z then js "expiring" else js "fresh").
Proof.
  intros E. unfold itemStatus. rewrite E. cbn [bindR].
  rewrite numLt_ofZ, numLe_ofZ. by repeat case_bool_decide.
Qed.

(** C1.  For an expiry date and a now whose starts of day are valid dates,
    [daysUntil] is the integer nearest to the number of days between the two
    starts of day, and [itemStatus] returns ["expired"] exactly when that
    integer is negative, ["expiring"] exactly when it lies in [0, 7], and
    ["fresh"] exactly when it exceeds 7; so it returns exactly one of the
    three. *)
Theorem itemStatus_partition expiryDate now (e t : Z) :
  startOfDay h (OfDate now) = Ok (Some t) ->
  startOfDay h expiryDate = Ok (Some e) ->
  exists k : Z,
    daysUntil h expiryDate now = Ok (ofZ k)
    /\ k = ((2 * (e - t) + MS_PER_DAY) / (2 * MS_PER_DAY))%Z
    /\ (itemStatus h expiryDate now = Ok (js "expired") <-> (k < 0)%Z)
    /\ (itemStatus h expiryDate now = Ok (js "expiring") <-> (0 <= k <= 7)%Z)
    /\ (itemStatus h expiryDate now = Ok (js "fresh") <-> (7 < k)%Z)
    /\ (itemStatus h expiryDate now = Ok (js "expired")
        \/ itemStatus h expiryDate now = Ok (js "expiring")
        \/ itemStatus h expiryDate now = Ok (js "fresh")).
Proof.
  intros Ht He. eexists. split; [by apply daysUntil_valid|].
  split; [reflexivity|].
  rewrite (itemStatus_of_days _ _ _ (daysUntil_valid _ _ _ _ Ht He)).
  destruct status_strings_distinct as (D1 & D2 & D3).
  repeat case_bool_decide; repeat split;
    try (intros [= E]; (lia || by exfalso; auto));
    try (intros; (lia || reflexivity)); auto.
Qed.

End StatusEngine.

(** ** Normalisation *)

(** [bound H as x E]: the computation at the head of [H : (do x <- m; _) =
    Ok _] returned; name its result [x] and remember [E : m = Ok x].
    [passed H as E]: the test at the head of [H : (if b then Err _ else _) =
    Ok _] was false. *)
Tactic Notation "bound" hyp(H) "as" ident(x) ident(E) :=
  match type of H with
  | bindR ?m _ = Ok _ =>
      destruct m as [x|] eqn:E; cbn [bindR] in H; [|discriminate H]
  end.

Tactic Notation "passed" hyp(H) "as" ident(E) :=
  match type of H with
  | (if ?b then Err _ else _) = Ok _ =>
      destruct b eqn:E; [discriminate H|]
  end.

Section Normalisation.
Variable h : Host.

(** The first test of [normalizeItem] lets the objects through, and nothing
    else. *)
Lemma payload_guard (input : value) :
  falsy input || negb (typeofObject input) || isArray input
  = (if input is VObj _ then false else true).
Proof.
  destruct input; cbn [falsy typeofObject isArray negb orb];
    rewrite ?orb_true_r; reflexivity.
Qed.

(** What a successful [normalizeItem] went through. *)
Lemma normalizeItem_Ok input now uuid r :
  normalizeItem h input now uuid = Ok r ->
  exists fs expiresOn quantityInput startOfExpiry,
    input = VObj fs
    /\ newDate h (OfValue (field "expiresOn" input)) = Ok expiresOn
    /\ isNaN (getTime expiresOn) = false
    /\ normalizeString h (field "name" input) (js "") 80 false
       = Ok (Item.name r)
    /\ Item.name r <> []
    /\ toNumber h (field "quantity" input) = Ok quantityInput
    /\ Item.quantity r
       = (if isFinite quantityInput
          then mathMax (ofZ 1) (mathMin (ofZ 999) (mathRound quantityInput))
          else ofZ 1)
    /\ Item.id r = orElse (field "id" input) (PStr uuid)
    /\ normalizeString h (field "category" input) (js "general") 40 true
       = Ok (Item.category r)
    /\ startOfDay h (OfDate expiresOn) = Ok startOfExpiry
    /\ dateToISO h startOfExpiry = Ok (Item.expiresOn r)
    /\ normalizeString h (field "notes" input) (js "") 240 false
       = Ok (Item.notes r)
    /\ dateToISO h now = Ok (Item.updatedAt r)
    /\ Item.createdAt r
       = orElse (field "createdAt" input) (PStr (Item.updatedAt r)).
Proof.
  unfold normalizeItem. rewrite payload_guard. intros H.
  destruct input as [| | | | | |fs]; try discriminate H.
  bound H as expiresOn Ed. passed H as En.
  bound H as name Ename. passed H as Ef.
  bound H as q Eq. bound H as category Ecat.
  bound H as sod Esod. bound H as iso Eiso. bound H as notes Enotes.
  destruct (dateToISO h now) as [stamp|] eqn:Enow.
  2:{ destruct (presence _); cbn [bindR] in H; discriminate H. }
  assert (Hr : r = {| Item.id := orElse (field "id" (VObj fs)) (PStr uuid);
                      Item.name := name; Item.category := category;
                      Item.quantity :=
                        (if isFinite q
                         then mathMax (ofZ 1) (mathMin (ofZ 999) (mathRound q))
                         else ofZ 1);
                      Item.expiresOn := iso; Item.notes := notes;
                      Item.createdAt :=
                        orElse (field "createdAt" (VObj fs)) (PStr stamp);
                      Item.updatedAt := stamp |}).
  { unfold orElse at 2. destruct (presence (field "createdAt" _));
      cbn [bindR] in H; congruence. }
  subst r. cbn [Item.id Item.name Item.category Item.quantity Item.expiresOn
                Item.notes Item.createdAt Item.updatedAt].
  exists fs, expiresOn, q, sod.
  repeat split; try done.
  intros ->. discriminate Ef.
Qed.

(** The stored quantity is an integer between 1 and 999. *)
Lemma stored_quantity input now uuid r :
  normalizeItem h input now uuid = Ok r ->
  exists k : Z, Item.quantity r = ofZ k /\ (1 <= k <= 999)%Z.
Proof.
  intros H.
  destruct (normalizeItem_Ok _ _ _ _ H)
    as (fs & d & q & sod & _ & _ & _ & _ & _ & _ & Equant & _).
  rewrite Equant.
  destruct q as [| | |q]; cbn [isFinite]; try (exists 1%Z; split; [done|lia]).
  rewrite clamp_finite. eexists; split; [done|lia].
Qed.

(** C2.  The stored quantity of an accepted input is an integer between 1
    and 999.  A quantity that [Number] turns into [NaN] or an infinity is
    stored as 1, the quantity 0 is stored as 1, and 5000 is stored as
    999. *)
Theorem quantity_clamped input now uuid r :
  normalizeItem h input now uuid = Ok r ->
  (exists k : Z, Item.quantity r = ofZ k /\ (1 <= k <= 999)%Z)
  /\ (forall n, toNumber h (field "quantity" input) = Ok n ->
        isFinite n = false -> Item.quantity r = ofZ 1)
  /\ (field "quantity" input = VNum (ofZ 0) -> Item.quantity r = ofZ 1)
  /\ (field "quantity" input = VNum (ofZ 5000) -> Item.quantity r = ofZ 999).
Proof.
  intros H.
  destruct (normalizeItem_Ok _ _ _ _ H)
    as (fs & d & q & sod & _ & _ & _ & _ & _ & Eq & Equant & _).
  split; [by eapply stored_quantity|].
  rewrite Equant. repeat split.
  - intros n En Hn. rewrite Eq in En. injection En as ->. by rewrite Hn.
  - intros E0. rewrite E0 in Eq. injection Eq as <-.
    change (isFinite (ofZ _)) with true. cbv iota.
    by rewrite mathRound_ofZ, mathMin_ofZ, mathMax_ofZ.
  - intros E0. rewrite E0 in Eq. injection Eq as <-.
    change (isFinite (ofZ _)) with true. cbv iota.
    by rewrite mathRound_ofZ, mathMin_ofZ, mathMax_ofZ.
Qed.

End Normalisation.

(** ** Length limits *)

Section Lengths.
Variable h : Host.

Lemma slice0_length (n : nat) (s : jstring) : length (slice0 n s) <= n.
Proof. unfold slice0. rewrite length_take. lia. Qed.

Lemma slice0_nil (n : nat) (s : jstring) :
  0 < n -> slice0 n s = [] <-> s = [].
Proof.
  intros Hn. unfold slice0. destruct s, n; simpl; split; (done || lia).
Qed.

(** [normalizeString] raises only where [toString] does: the length of the
    input plays no part. *)
Lemma normalizeString_spec input fallback maxLength lowercase :
  normalizeString h input fallback maxLength lowercase
  = do s <- toStringV h (orElse input (PStr fallback));
    Ok (if lowercase then toLowerCase h (slice0 maxLength (trim s))
        else slice0 maxLength (trim s)).
Proof. reflexivity. Qed.

Lemma normalizeString_string (s fallback : jstring) maxLength lowercase :
  normalizeString h (VStr s) fallback maxLength lowercase
  = Ok (if lowercase then toLowerCase h (slice0 maxLength (trim s))
        else slice0 maxLength (trim s)).
Proof. reflexivity. Qed.

Lemma normalizeString_length input fallback maxLength s :
  normalizeString h input fallback maxLength false = Ok s ->
  length s <= maxLength.
Proof.
  rewrite normalizeString_spec. destruct (toStringV h _); [|discriminate].
  intros [= <-]. apply slice0_length.
Qed.

(** The stored name and notes keep to their limits; the stored category is
    the lower case of a string that keeps to its limit. *)
Lemma stored_lengths input now uuid r :
  normalizeItem h input now uuid = Ok r ->
  length (Item.name r) <= 80
  /\ length (Item.notes r) <= 240
  /\ exists limited, length limited <= 40
       /\ Item.category r = toLowerCase h limited.
Proof.
  intros H.
  destruct (normalizeItem_Ok _ _ _ _ _ H)
    as (fs & d & q & sod & _ & _ & _ & En & _ & _ & _ & _ & Ec & _ & _ & Eo & _).
  split; [by eapply normalizeString_length|].
  split; [by eapply normalizeString_length|].
  rewrite normalizeString_spec in Ec.
  destruct (toStringV h _) as [s|]; [|discriminate Ec].
  cbn [bindR] in Ec. injection Ec as Ec. exists (slice0 40 (trim s)).
  split; [apply slice0_length|by symmetry].
Qed.

(** A name is refused as missing only when nothing is left of it after
    trimming: cutting it to 80 code units never empties it. *)
Lemma long_name_not_rejected (s : jstring) :
  trim s <> [] ->
  exists name, normalizeString h (VStr s) (js "") 80 false = Ok name
    /\ name = slice0 80 (trim s) /\ falsy (VStr name) = false.
Proof.
  intros Hs. eexists; split; [apply normalizeString_string|]. split; [done|].
  cbn [falsy]. destruct (slice0 80 (trim s)) eqn:E; [|done].
  apply slice0_nil in E; [done|lia].
Qed.

End Lengths.

(** ** Runs on the sample host *)

(** C10, the category.  [normalizeString] cuts the category to 40 code units
    and lowers the case afterwards; lowering can lengthen.  The input
    [dottedCategoryInput] is accepted and its stored category is forty times
    U+0069 U+0307: 80 code units. *)
Theorem category_exceeds_limit :
  exists r,
    normalizeItem utcHost dottedCategoryInput sampleNow sampleUuid = Ok r
    /\ Item.category r = mjoin (replicate 40 [0x69%N; 0x307%N])
    /\ length (Item.category r) = 80
    /\ ~ length (Item.category r) <= 40.
Proof.
  eexists. split; [vm_compute; reflexivity|].
  split; [vm_compute; reflexivity|].
  split; [vm_compute; reflexivity|]. vm_compute. lia.
Qed.

(** On every host, [normalizeString] with the options of the name is not
    idempotent: trimming comes before cutting. *)
Lemma normalizeString_not_idempotent (h : Host) :
  normalizeString h (VStr (replicate 79 97%N ++ js " b")) (js "") 80 false
  = Ok (replicate 79 97%N ++ js " ")
  /\ normalizeString h (VStr (replicate 79 97%N ++ js " ")) (js "") 80 false
     = Ok (replicate 79 97%N).
Proof. split; vm_compute; reflexivity. Qed.

(** C7, at an input whose name is cut after a space.  The first
    normalisation trims and then cuts to 80 code units, which leaves the
    space at the end; normalising the stored record again trims it away:
    the name changes from 80 to 79 code units. *)
Theorem renormalize_changes_name :
  exists r r',
    normalizeItem utcHost cutNameInput sampleNow sampleUuid = Ok r
    /\ normalizeItem utcHost (VObj (itemToObj r)) laterNow otherUuid = Ok r'
    /\ Item.name r = replicate 79 97%N ++ js " "
    /\ Item.name r' = replicate 79 97%N
    /\ Item.name r' <> Item.name r.
Proof.
  eexists. eexists. split; [vm_compute; reflexivity|].
  split; [vm_compute; reflexivity|].
  split; [vm_compute; reflexivity|].
  split; [vm_compute; reflexivity|].
  vm_compute. discriminate.
Qed.

(** ** Equality tests and properties of objects *)

Lemma jstr_eqb_eq (a b : jstring) : jstr_eqb a b = true <-> a = b.
Proof.
  revert b. induction a as [|x a IH]; intros [|y b]; simpl; try done.
  rewrite andb_true_iff, N.eqb_eq, IH. split; [intros [-> ->]|intros [= -> ->]]; done.
Qed.

Lemma jstr_eqb_refl (a : jstring) : jstr_eqb a a = true.
Proof. by apply jstr_eqb_eq. Qed.

Lemma jstr_eqb_neq (a b : jstring) : a <> b -> jstr_eqb a b = false.
Proof.
  intros Hne. destruct (jstr_eqb a b) eqn:E; [|done].
  by apply jstr_eqb_eq in E.
Qed.

Lemma numEq_eq (a b : num) : numEq a b = true -> a = b.
Proof.
  destruct a, b; simpl; try done.
  intros E. apply bool_decide_eq_true in E. by subst.
Qed.

(** Values that [===] identifies are the same value. *)
Lemma strictEq_eq (a b : value) : strictEq a b = true -> a = b.
Proof.
  destruct a, b; simpl; try done.
  - intros E. apply bool_decide_eq_true in E. by subst.
  - intros E. apply numEq_eq in E. by subst.
  - intros E. apply jstr_eqb_eq in E. by subst.
Qed.

Lemma getProp_setProp_eq (k : jstring) (v : value) (fs : props) :
  getProp k (setProp k v fs) = v.
Proof.
  induction fs as [|[k' v'] fs IH]; simpl.
  - by rewrite jstr_eqb_refl.
  - destruct (jstr_eqb k k') eqn:E; simpl.
    + by rewrite jstr_eqb_refl.
    + by rewrite E.
Qed.

Lemma getProp_setProp_ne (k k' : jstring) (v : value) (fs : props) :
  k <> k' -> getProp k (setProp k' v fs) = getProp k fs.
Proof.
  intros Hne. induction fs as [|[k'' v''] fs IH]; simpl.
  - by rewrite jstr_eqb_neq.
  - destruct (jstr_eqb k' k'') eqn:E; simpl.
    + apply jstr_eqb_eq in E. subst k''. by rewrite !jstr_eqb_neq.
    + by rewrite IH.
Qed.

Lemma findIndex_Some (p : item -> bool) (l : list item) (i : nat) :
  findIndex p l = Some i ->
  exists x, l !! i = Some x /\ p x = true.
Proof.
  revert i. induction l as [|y l IH]; intros i; simpl; [done|].
  destruct (p y) eqn:E.
  - intros [= <-]. by exists y.
  - destruct (findIndex p l) as [j|]; [|done].
    intros [= <-]. destruct (IH j eq_refl) as (x & ? & ?). by exists x.
Qed.

Lemma findIndex_None (p : item -> bool) (l : list item) :
  findIndex p l = None -> Forall (fun x => p x = false) l.
Proof.
  induction l as [|y l IH]; simpl; [by constructor|].
  destruct (p y) eqn:E; [done|].
  destruct (findIndex p l); [done|]. intros _. constructor; auto.
Qed.

(** The properties [normalizeItem] reads, on a stored item. *)
Lemma fields_of_item (it : item) :
  field "id" (VObj (itemToObj it)) = Item.id it
  /\ field "name" (VObj (itemToObj it)) = VStr (Item.name it)
  /\ field "category" (VObj (itemToObj it)) = VStr (Item.category it)
  /\ field "quantity" (VObj (itemToObj it)) = VNum (Item.quantity it)
  /\ field "expiresOn" (VObj (itemToObj it)) = VStr (Item.expiresOn it)
  /\ field "notes" (VObj (itemToObj it)) = VStr (Item.notes it)
  /\ field "createdAt" (VObj (itemToObj it)) = Item.createdAt it.
Proof. repeat split; reflexivity. Qed.

(** Spreading a stored item into the empty object gives its properties. *)
Lemma spread_item (it : item) : spread [] (VObj (itemToObj it)) = itemToObj it.
Proof. reflexivity. Qed.

Section Converse.
Variable h : Host.

(** The converse of [normalizeItem_Ok]: the steps determine the record. *)
Lemma normalizeItem_build fs now uuid expiresOn name q category sod iso
    notes stamp :
  newDate h (OfValue (field "expiresOn" (VObj fs))) = Ok expiresOn ->
  isNaN (getTime expiresOn) = false ->
  normalizeString h (field "name" (VObj fs)) (js "") 80 false = Ok name ->
  name <> [] ->
  toNumber h (field "quantity" (VObj fs)) = Ok q ->
  normalizeString h (field "category" (VObj fs)) (js "general") 40 true
  = Ok category ->
  startOfDay h (OfDate expiresOn) = Ok sod ->
  dateToISO h sod = Ok iso ->
  normalizeString h (field "notes" (VObj fs)) (js "") 240 false = Ok notes ->
  dateToISO h now = Ok stamp ->
  normalizeItem h (VObj fs) now uuid
  = Ok {| Item.id := orElse (field "id" (VObj fs)) (PStr uuid);
          Item.name := name;
          Item.category := category;
          Item.quantity :=
            (if isFinite q
             then mathMax (ofZ 1) (mathMin (ofZ 999) (mathRound q))
             else ofZ 1);
          Item.expiresOn := iso;
          Item.notes := notes;
          Item.createdAt := orElse (field "createdAt" (VObj fs)) (PStr stamp);
          Item.updatedAt := stamp |}.
Proof.
  intros Ed En Ename Hname Eq Ecat Esod Eiso Enotes Enow.
  unfold normalizeItem. rewrite payload_guard. cbv iota.
  rewrite Ed. cbn [bindR]. rewrite En, Ename. cbn [bindR].
  destruct name as [|c name]; [done|]. cbn [falsy].
  rewrite Eq, Ecat, Esod. cbn [bindR]. rewrite Eiso, Enotes, Enow. cbn [bindR].
  unfold orElse. by destruct (presence (field "createdAt" _)).
Qed.

(** [v ?? d] is [v] when [v] is neither [null] nor [undefined]. *)
Lemma presence_toValue (p : present) : presence (toValue p) = Some p.
Proof. by destruct p. Qed.

Lemma orElse_keep (p d : present) : orElse (toValue p) d = p.
Proof. unfold orElse. by rewrite presence_toValue. Qed.

End Converse.

(** ** The store *)

Section Store.
Variable h : Host.

Lemma field_merged (k : string) old patch id :
  js k <> js "id" -> js k <> js "createdAt" ->
  field k (mergedInput old patch id) = field k (VObj (patched old patch)).
Proof.
  intros H1 H2. unfold mergedInput, field.
  by rewrite !getProp_setProp_ne.
Qed.

Lemma id_merged old patch id : field "id" (mergedInput old patch id) = id.
Proof.
  unfold mergedInput, field.
  rewrite getProp_setProp_ne by discriminate. apply getProp_setProp_eq.
Qed.

Lemma createdAt_merged old patch id :
  field "createdAt" (mergedInput old patch id) = Item.createdAt old.
Proof. unfold mergedInput, field. apply getProp_setProp_eq. Qed.

(** What a successful [update] did. *)
Lemma update_Ok id patch now uuid st r st' :
  update h id patch now uuid st = (Ok (Some r), st') ->
  exists index old,
    findIndex (fun it => strictEq (Item.id it) id) (items st) = Some index
    /\ items st !! index = Some old
    /\ id = Item.id old
    /\ normalizeItem h (mergedInput old patch id) now uuid = Ok r
    /\ st' = persist {| items := <[index := r]> (items st); file := file st |}.
Proof.
  unfold update. intros H.
  destruct (findIndex _ _) as [index|] eqn:Ei; [|discriminate H].
  destruct (findIndex_Some _ _ _ Ei) as (old & Eold & Eid).
  rewrite Eold in H.
  destruct (normalizeItem h _ now uuid) as [m|] eqn:En; [|discriminate H].
  injection H as <- <-. exists index, old.
  repeat split; try done. symmetry. by apply strictEq_eq.
Qed.

(** A successful [update] keeps the id of the record it replaces. *)
Lemma update_keeps_id id patch now uuid st r st' :
  update h id patch now uuid st = (Ok (Some r), st') ->
  exists index old,
    items st !! index = Some old
    /\ Item.id r = Item.id old
    /\ items st' = <[index := r]> (items st).
Proof.
  intros H.
  destruct (update_Ok _ _ _ _ _ _ _ H) as (index & old & _ & Eold & Eid & En & ->).
  exists index, old.
  destruct (normalizeItem_Ok _ _ _ _ _ En)
    as (fs & d & q & sod & _ & _ & _ & _ & _ & _ & _ & Erid & _).
  rewrite id_merged, Eid, orElse_keep in Erid.
  by repeat split.
Qed.

(** C4.  A successful [update(id, patch, now)] replaces the record with
    that id, in place, by the normalisation of
    [{ ...old, ...patch, id, createdAt: old.createdAt }]: the new record has
    the id and the [createdAt] of the old one, its [updatedAt] is [now], and
    its name, category, quantity, expiry date and notes are those the
    normalisation of [{ ...old, ...patch }] gives. *)
Theorem update_frame id patch now uuid st r st' :
  update h id patch now uuid st = (Ok (Some r), st') ->
  exists index old,
    items st !! index = Some old
    /\ id = Item.id old
    /\ Item.id r = Item.id old
    /\ Item.createdAt r = Item.createdAt old
    /\ dateToISO h now = Ok (Item.updatedAt r)
    /\ normalizeItem h (mergedInput old patch id) now uuid = Ok r
    /\ (exists r0,
          normalizeItem h (VObj (patched old patch)) now uuid = Ok r0
          /\ Item.name r = Item.name r0
          /\ Item.category r = Item.category r0
          /\ Item.quantity r = Item.quantity r0
          /\ Item.expiresOn r = Item.expiresOn r0
          /\ Item.notes r = Item.notes r0
          /\ Item.updatedAt r = Item.updatedAt r0)
    /\ items st' = <[index := r]> (items st)
    /\ file st' = Some (items st').
Proof.
  intros H.
  destruct (update_Ok _ _ _ _ _ _ _ H) as (index & old & _ & Eold & Eid & En & ->).
  exists index, old.
  destruct (normalizeItem_Ok _ _ _ _ _ En)
    as (fs & d & q & sod & Efs & Ed & Enan & Ename & Hname & Eq & Equant & Erid
        & Ecat & Esod & Eiso & Enotes & Enow & Ercr).
  rewrite id_merged, Eid, orElse_keep in Erid.
  rewrite createdAt_merged, orElse_keep in Ercr.
  rewrite field_merged in Ed, Ename, Eq, Ecat, Enotes by discriminate.
  repeat split; try done; try congruence.
  eexists. split.
  - by eapply normalizeItem_build.
  - by cbn.
Qed.


(** An operation that raises leaves the store as it was. *)
Lemma raise_keeps_store rawItem id patch now uuid st :
  (forall e st', create h rawItem now uuid st = (Err e, st') -> st' = st)
  /\ (forall e st', update h id patch now uuid st = (Err e, st') -> st' = st).
Proof.
  split; intros e st'.
  - unfold create. destruct (normalizeItem h _ _ _); [done|]. by intros [= _ <-].
  - unfold update. destruct (findIndex _ _) as [i|]; [|done].
    destruct (items st !! i); [|done].
    destruct (normalizeItem h _ _ _); [done|]. by intros [= _ <-].
Qed.

(** The three validation failures of [normalizeItem]. *)
Lemma normalizeItem_rejects input now uuid :
  ((forall fs, input <> VObj fs) ->
     normalizeItem h input now uuid = Err PayloadNotObject)
  /\ (forall fs, input = VObj fs ->
        newDate h (OfValue (field "expiresOn" input)) = Ok None ->
        normalizeItem h input now uuid = Err InvalidExpiresOn)
  /\ (forall fs t, input = VObj fs ->
        newDate h (OfValue (field "expiresOn" input)) = Ok (Some t) ->
        normalizeString h (field "name" input) (js "") 80 false = Ok [] ->
        normalizeItem h input now uuid = Err NameRequired).
Proof.
  unfold normalizeItem. rewrite payload_guard. repeat split.
  - intros Hno. destruct input; try done. by destruct (Hno fs).
  - intros fs -> ->. done.
  - intros fs t -> -> ->. done.
Qed.

End Store.

(** ** Normalising a stored record again *)

Section Renormalise.
Variable h : Host.

(** A stored record whose strings the normaliser leaves alone, and whose
    expiry date reads back as the local midnight it was printed from, is
    normalised to itself, up to [updatedAt]. *)
Lemma renormalize_stable input now uuid r now' uuid' t stamp :
  normalizeItem h input now uuid = Ok r ->
  trim (Item.name r) = Item.name r ->
  toLowerCase h (slice0 40 (trim (Item.category r))) = Item.category r ->
  trim (Item.notes r) = Item.notes r ->
  dateParse h (Item.expiresOn r) = Some t ->
  localMidnight h t = Some t ->
  toISOString h t = Item.expiresOn r ->
  dateToISO h now' = Ok stamp ->
  normalizeItem h (VObj (itemToObj r)) now' uuid'
  = Ok {| Item.id := Item.id r;
          Item.name := Item.name r;
          Item.category := Item.category r;
          Item.quantity := Item.quantity r;
          Item.expiresOn := Item.expiresOn r;
          Item.notes := Item.notes r;
          Item.createdAt := Item.createdAt r;
          Item.updatedAt := stamp |}.
Proof.
  intros H Hname Hcat Hnotes Hparse Hmid Hiso Hnow.
  destruct (stored_lengths _ _ _ _ _ H) as (Ln & Lo & _).
  destruct (stored_quantity _ _ _ _ _ H) as (k & Ek & Hk).
  destruct (normalizeItem_Ok _ _ _ _ _ H)
    as (_ & _ & _ & _ & _ & _ & _ & _ & Hne & _).
  rewrite (normalizeItem_build h (itemToObj r) now' uuid' (Some t)
             (Item.name r) (Item.quantity r) (Item.category r) (Some t)
             (Item.expiresOn r) (Item.notes r) stamp); try done.
  - f_equal. f_equal.
    + apply orElse_keep.
    + rewrite Ek. change (isFinite (ofZ k)) with true. cbv iota.
      rewrite mathRound_ofZ, mathMin_ofZ, mathMax_ofZ. f_equal. lia.
    + apply orElse_keep.
  - cbn [field itemToObj getProp jstr_eqb]. simpl. by rewrite Hparse.
  - change (field "name" (VObj (itemToObj r))) with (VStr (Item.name r)).
    rewrite normalizeString_string, Hname. unfold slice0.
    by rewrite take_ge by lia.
  - change (field "category" (VObj (itemToObj r))) with (VStr (Item.category r)).
    by rewrite normalizeString_string, Hcat.
  - cbn [startOfDay newDate bindR setHours0]. by rewrite Hmid.
  - cbn [dateToISO]. by rewrite Hiso.
  - change (field "notes" (VObj (itemToObj r))) with (VStr (Item.notes r)).
    rewrite normalizeString_string, Hnotes. unfold slice0.
    by rewrite take_ge by lia.
Qed.

End Renormalise.

Section StoreInvariant.
Variable h : Host.

Lemma create_Ok rawItem now uuid st r st' :
  create h rawItem now uuid st = (Ok r, st') ->
  normalizeItem h rawItem now uuid = Ok r
  /\ st' = persist {| items := items st ++ [r]; file := file st |}.
Proof.
  unfold create. destruct (normalizeItem h _ _ _); [|discriminate].
  by intros [= <- <-].
Qed.

Lemma create_items rawItem now uuid st :
  items (create h rawItem now uuid st).2
  = match normalizeItem h rawItem now uuid with
    | Ok r => items st ++ [r]
    | Err _ => items st
    end.
Proof. unfold create. by destruct (normalizeItem h _ _ _). Qed.

Lemma step_unique o st :
  uniqueIds st ->
  match o with
  | Create rawItem _ uuid => assignedId rawItem uuid ∉ (Item.id <$> items st)
  | _ => True
  end ->
  uniqueIds (step h o st).
Proof.
  unfold uniqueIds. intros Hnd Hfresh.
  destruct o as [raw now uuid|id patch now uuid|id]; simpl.
  - rewrite create_items. destruct (normalizeItem h _ _ _) as [r|] eqn:E; [|done].
    rewrite fmap_app. apply NoDup_app. split; [done|]. split.
    + intros x Hx Hin. apply list_elem_of_singleton in Hin. subst x.
      apply Hfresh. unfold assignedId.
      destruct (normalizeItem_Ok _ _ _ _ _ E)
        as (fs & d & q & sod & _ & _ & _ & _ & _ & _ & _ & Eid & _).
      by rewrite <- Eid.
    + apply NoDup_singleton.
  - destruct (update h id patch now uuid st) as [[[r|]|e] st'] eqn:E.
    + destruct (update_keeps_id _ _ _ _ _ _ _ _ E)
        as (i & old & Eold & Eid & Eitems).
      simpl. rewrite Eitems, list_fmap_insert, Eid.
      rewrite list_insert_id; [done|]. by rewrite list_lookup_fmap, Eold.
    + unfold update in E. destruct (findIndex _ _) as [i|]; [|by injection E as <-].
      destruct (items st !! i); [|by injection E as <-].
      by destruct (normalizeItem h _ _ _).
    + unfold update in E. destruct (findIndex _ _) as [i|]; [|done].
      destruct (items st !! i); [|done].
      destruct (normalizeItem h _ _ _); [done|]. by injection E as <- <-.
  - unfold remove. destruct (findIndex _ _) as [i|]; [|done]. simpl.
    rewrite list_fmap_delete.
    eapply sublist_NoDup; [exact Hnd|apply sublist_delete].
Qed.

(** C3, amended.  From a collection whose ids are pairwise different, a
    run of [create], [update] and [remove] in which no [create] assigns an
    id already in the collection ends in a collection whose ids are pairwise
    different. *)
Theorem unique_ids_preserved ops st :
  uniqueIds st ->
  freshCreates h ops st ->
  uniqueIds (run h ops st).
Proof.
  revert st. induction ops as [|o ops IH]; intros st Hnd Hfresh; [done|].
  destruct Hfresh as [Ho Hrest]. simpl. apply IH.
  - by apply step_unique.
  - done.
Qed.

End StoreInvariant.


(** C3, as stated, fails: two [create] calls with the same supplied id put
    two items with that id into an empty collection. *)
Lemma duplicate_id_created :
  ~ (forall (h : Host) (ops : list op) (st : store),
       uniqueIds st -> uniqueIds (run h ops st)).
Proof.
  intros H.
  specialize (H utcHost
                [Create milkInput sampleNow sampleUuid;
                 Create milkInput laterNow otherUuid]
                emptyStore NoDup_nil_2).
  vm_compute in H. apply NoDup_cons in H as [Hin _].
  apply Hin. left.
Qed.

(** ** The read representation *)

Section ReadRepresentation.
Variable h : Host.

Lemma startOfDay_string (s : jstring) :
  startOfDay h (OfValue (VStr s)) = Ok (setHours0 h (dateParse h s)).
Proof. reflexivity. Qed.

(** [toApiItem] never raises on a stored item: its expiry date is a
    string. *)
Lemma toApiItem_Ok (it : item) (now : date) :
  exists a,
    toApiItem h it now = Ok a
    /\ ApiItem.base a = it
    /\ daysUntil h (OfValue (VStr (Item.expiresOn it))) now
       = Ok (ApiItem.daysLeft a)
    /\ itemStatus h (OfValue (VStr (Item.expiresOn it))) now
       = Ok (ApiItem.status a).
Proof.
  unfold toApiItem, itemStatus.
  assert (E : exists n, daysUntil h (OfValue (VStr (Item.expiresOn it))) now = Ok n).
  { unfold daysUntil. rewrite startOfDay_string. cbn [startOfDay newDate bindR].
    by eexists. }
  destruct E as [n ->]. cbn [bindR].
  destruct (numLt n (ofZ 0)); [|destruct (numLe n (ofZ 7))];
    cbn [bindR]; eexists; repeat split.
Qed.

(** The object sent for an item is the stored item followed by the two
    derived properties. *)
Lemma apiToObj_spec (a : apiItem) :
  apiToObj a
  = itemToObj (ApiItem.base a)
    ++ [ (js "daysLeft", VNum (ApiItem.daysLeft a));
         (js "status", VStr (ApiItem.status a)) ].
Proof. reflexivity. Qed.

(** C6.  After a successful [create] returning [r], [list()] is the old
    list followed by [r], which is also what the file holds; and at any
    later time the read representation of [r] is the object [r] with the
    two properties [daysLeft] and [status] added after it: every other
    property reads as in [r]. *)
Theorem create_then_list rawItem now uuid st r st' :
  create h rawItem now uuid st = (Ok r, st') ->
  list_items st' = list_items st ++ [r]
  /\ r ∈ list_items st'
  /\ file st' = Some (list_items st')
  /\ forall now', exists a,
       toApiItem h r now' = Ok a
       /\ apiToObj a
          = itemToObj r ++ [ (js "daysLeft", VNum (ApiItem.daysLeft a));
                             (js "status", VStr (ApiItem.status a)) ]
       /\ (forall k, k <> js "daysLeft" -> k <> js "status" ->
             getProp k (apiToObj a) = getProp k (itemToObj r))
       /\ daysUntil h (OfValue (VStr (Item.expiresOn r))) now'
          = Ok (ApiItem.daysLeft a)
       /\ itemStatus h (OfValue (VStr (Item.expiresOn r))) now'
          = Ok (ApiItem.status a).
Proof.
  intros H. destruct (create_Ok _ _ _ _ _ _ _ H) as [_ ->].
  unfold list_items. cbn [persist items file].
  split; [done|]. split; [set_solver|]. split; [done|].
  intros now'. destruct (toApiItem_Ok r now') as (a & Ea & Eb & Ed & Es).
  exists a. split; [done|]. split; [by rewrite apiToObj_spec, Eb|].
  split; [|done].
  intros k Hd Hs. unfold apiToObj. rewrite Eb.
  by rewrite !getProp_setProp_ne.
Qed.

End ReadRepresentation.

(** ** The rate limiter *)

Section FixedWindow.
Variables windowMs maxRequests : Z.
Variable ip : jstring.
Local Open Scope Z_scope.

Local Abbreviation limit := (rateLimitMiddleware windowMs maxRequests).

Lemma limit_opens nowMs buckets :
  opens windowMs ip nowMs buckets ->
  limit ip nowMs buckets
  = (None, <[ip := {| windowStartMs := nowMs; count := 1 |}]> buckets).
Proof.
  unfold opens, rateLimitMiddleware, limiter.
  destruct (buckets !! ip) as [cur|]; [|done].
  intros Hw. by rewrite bool_decide_eq_true_2.
Qed.

Lemma limit_full nowMs buckets start n :
  buckets !! ip = Some {| windowStartMs := start; count := n |} ->
  nowMs - start < windowMs -> maxRequests <= n ->
  limit ip nowMs buckets = (Some 429%nat, buckets).
Proof.
  intros Hb Hw Hn. unfold rateLimitMiddleware, limiter. rewrite Hb. simpl.
  rewrite bool_decide_eq_false_2 by lia.
  by rewrite bool_decide_eq_true_2 by lia.
Qed.

Lemma limit_counts nowMs buckets start n :
  buckets !! ip = Some {| windowStartMs := start; count := n |} ->
  nowMs - start < windowMs -> n < maxRequests ->
  limit ip nowMs buckets
  = (None, <[ip := {| windowStartMs := start; count := n + 1 |}]> buckets).
Proof.
  intros Hb Hw Hn. unfold rateLimitMiddleware, limiter. rewrite Hb. simpl.
  rewrite bool_decide_eq_false_2 by lia.
  by rewrite bool_decide_eq_false_2 by lia.
Qed.

(** A request of another address leaves the bucket of [ip] alone. *)
Lemma limit_other ip' nowMs buckets :
  ip' <> ip -> (limit ip' nowMs buckets).2 !! ip = buckets !! ip.
Proof.
  intros Hne. unfold rateLimitMiddleware, limiter.
  destruct (buckets !! ip') as [cur|]; simpl;
    repeat case_bool_decide; simpl; by rewrite ?lookup_insert_ne.
Qed.

(** Inside a window the counter of [ip] is the number of its requests that
    went through, and never exceeds the limit. *)
Lemma serve_in_window start reqs : forall buckets n statuses buckets',
  buckets !! ip = Some {| windowStartMs := start; count := n |} ->
  n <= maxRequests ->
  Forall (fun r => r.1 = ip -> r.2 - start < windowMs) reqs ->
  serve windowMs maxRequests reqs buckets = (statuses, buckets') ->
  buckets' !! ip
  = Some {| windowStartMs := start; count := n + admitted ip reqs statuses |}
  /\ n + admitted ip reqs statuses <= maxRequests.
Proof.
  induction reqs as [|[ip' t] reqs IH]; intros buckets n statuses buckets' Hb Hn Hin.
  - intros [= <- <-]. simpl. rewrite Z.add_0_r. done.
  - apply Forall_cons in Hin as [Ht Hin]. simpl in Ht. cbn [serve].
    destruct (limit ip' t buckets) as [r b1] eqn:E1.
    destruct (serve windowMs maxRequests reqs b1) as [rs b2] eqn:E2.
    intros [= <- <-]. cbn [admitted].
    destruct (decide (ip' = ip)) as [->|Hne].
    + rewrite jstr_eqb_refl. specialize (Ht eq_refl).
      destruct (decide (n < maxRequests)) as [Hlt|Hge].
      * rewrite (limit_counts _ _ _ _ Hb Ht Hlt) in E1. injection E1 as <- <-.
        rewrite bool_decide_eq_true_2 by done. cbn [andb].
        rewrite Z.add_assoc. eapply IH; [apply lookup_insert_eq|lia|done|done].
      * rewrite (limit_full _ _ _ _ Hb Ht) in E1 by lia. injection E1 as <- <-.
        rewrite bool_decide_eq_false_2 by done. cbn [andb].
        rewrite Z.add_0_l. by eapply IH.
    + rewrite (jstr_eqb_neq ip ip') by done. cbn [andb]. rewrite Z.add_0_l.
      eapply IH; [|done|done|done].
      rewrite <- Hb. replace b1 with (limit ip' t buckets).2 by by rewrite E1.
      by apply limit_other.
Qed.

(** C9.  With a limit of at least one request per window: when a request of
    [ip] at time [start] opens a window and the later requests of [ip] all
    arrive less than [windowMs] after [start], the requests of [ip] that
    went through number at most [maxRequests], and that number is the
    counter of the bucket.  Once it has reached [maxRequests], a further
    request of [ip] less than [windowMs] after [start] is answered 429 and
    changes nothing, and a request at or after [start + windowMs] goes
    through and opens a new window with the counter at 1. *)
Theorem fixed_window buckets start reqs statuses buckets' :
  1 <= maxRequests ->
  opens windowMs ip start buckets ->
  Forall (fun r => r.1 = ip -> r.2 - start < windowMs) reqs ->
  serve windowMs maxRequests ((ip, start) :: reqs) buckets
  = (statuses, buckets') ->
  let n := admitted ip ((ip, start) :: reqs) statuses in
  head statuses = Some None
  /\ n <= maxRequests
  /\ buckets' !! ip = Some {| windowStartMs := start; count := n |}
  /\ (n = maxRequests ->
      forall nowMs,
        (nowMs - start < windowMs ->
           limit ip nowMs buckets' = (Some 429%nat, buckets'))
        /\ (nowMs - start >= windowMs ->
              limit ip nowMs buckets'
              = (None,
                 <[ip := {| windowStartMs := nowMs; count := 1 |}]> buckets'))).
Proof.
  intros HN Hopen Hin. cbn [serve]. rewrite (limit_opens _ _ Hopen).
  destruct (serve windowMs maxRequests reqs _) as [rs b2] eqn:E2.
  intros [= <- <-]. cbn [admitted head]. rewrite jstr_eqb_refl.
  rewrite bool_decide_eq_true_2 by done. cbn [andb].
  destruct (serve_in_window start reqs _ 1 rs b2 (lookup_insert_eq _ _ _) HN Hin E2)
    as [Hb Hle].
  repeat split; try done.
  - intros Hw. eapply limit_full; [exact Hb|done|lia].
  - intros Hw. apply limit_opens. unfold opens. by rewrite Hb.
Qed.

End FixedWindow.

(** ** Sorting *)

Section Sorting.
Context {A : Type} (cmp : A -> A -> num) (key : A -> Z) (valid : A -> Prop).

(** The comparator orders the valid elements by their key. *)
Hypothesis cmp_key : forall x y, valid x -> valid y ->
  numLt (ofZ 0) (cmp x y) = bool_decide (key y < key x)%Z.






End Sorting.

(** ** The route [GET /api/items] *)

Section ListRoute.
Variable h : Host.

(** The expiry date of an accepted record is a date the host printed: a
    host that reads back what it prints reads it. *)
Lemma stored_expiry_printed input now uuid r :
  normalizeItem h input now uuid = Ok r ->
  exists t, Item.expiresOn r = toISOString h t
    /\ (dateParse h (toISOString h t) = Some t -> parses h r).
Proof.
  intros H.
  destruct (normalizeItem_Ok _ _ _ _ _ H)
    as (_ & _ & _ & sod & _ & _ & _ & _ & _ & _ & _ & _ & _ & _ & Eiso & _).
  destruct sod as [t|]; [|discriminate Eiso]. injection Eiso as Eiso.
  exists t. split; [done|]. unfold parses. rewrite <- Eiso. intros ->. by eexists.
Qed.







End ListRoute.

(** * The theorems at the sample inputs *)

(** The quantities 0, 2.5, ["abc"], [null] and 5000 on [utcHost]. *)
Example quantity_examples :
  (fun q => match normalizeItem utcHost (riceInput q) sampleNow sampleUuid with
            | Ok r => Some (Item.quantity r)
            | Err _ => None
            end)
  <$> [ VNum (ofZ 0); VNum (Fin (Q2Qc (5 # 2))); VStr (js "abc"); VNull;
        VNum (ofZ 5000) ]
  = [ Some (ofZ 1); Some (ofZ 3); Some (ofZ 1); Some (ofZ 1); Some (ofZ 999) ].
Proof. vm_compute; reflexivity. Qed.

(** The same through the store: after [create] of [cutNameInput], an
    [update] with the empty patch shortens the stored name. *)
Example empty_patch_changes_name :
  exists r st r' st',
    create utcHost cutNameInput sampleNow sampleUuid emptyStore = (Ok r, st)
    /\ update utcHost (VStr sampleUuid) (VObj []) laterNow otherUuid st
       = (Ok (Some r'), st')
    /\ length (Item.name r) = 80 /\ length (Item.name r') = 79.
Proof.
  do 4 eexists. split; [vm_compute; reflexivity|].
  split; [vm_compute; reflexivity|]. split; vm_compute; reflexivity.
Qed.

(** Normalising [milkRecord] again a day later changes [updatedAt] only. *)
Example renormalize_stable_example :
  normalizeItem utcHost (VObj (itemToObj milkRecord)) laterNow otherUuid
  = Ok {| Item.id := Item.id milkRecord;
          Item.name := Item.name milkRecord;
          Item.category := Item.category milkRecord;
          Item.quantity := Item.quantity milkRecord;
          Item.expiresOn := Item.expiresOn milkRecord;
          Item.notes := Item.notes milkRecord;
          Item.createdAt := Item.createdAt milkRecord;
          Item.updatedAt := js "2023-11-15T22:13:20.000Z" |}.
Proof.
  apply (renormalize_stable utcHost milkInput sampleNow sampleUuid milkRecord
           laterNow otherUuid 1893456000000);
    vm_compute; reflexivity.
Qed.

(** [GET /api/items?status=stale] is answered 400. *)
Example unknown_status_example :
  code (getItems utcHost pantry (fun _ => sampleNow) (VStr (js "stale"))) = 400.
Proof. vm_compute; reflexivity. Qed.

(** C1 at [sampleNow] and the expiry date ["2030-01-01"], on [utcHost]. *)
Lemma itemStatus_partition_witness :
  startOfDay utcHost (OfDate sampleNow) = Ok (Some 1699920000000%Z)
  /\ startOfDay utcHost (OfValue (VStr (js "2030-01-01")))
     = Ok (Some 1893456000000%Z)
  /\ exists k : Z,
       daysUntil utcHost (OfValue (VStr (js "2030-01-01"))) sampleNow
       = Ok (ofZ k)
       /\ k = ((2 * (1893456000000 - 1699920000000) + MS_PER_DAY)
               / (2 * MS_PER_DAY))%Z
       /\ (itemStatus utcHost (OfValue (VStr (js "2030-01-01"))) sampleNow
           = Ok (js "expired") <-> (k < 0)%Z)
       /\ (itemStatus utcHost (OfValue (VStr (js "2030-01-01"))) sampleNow
           = Ok (js "expiring") <-> (0 <= k <= 7)%Z)
       /\ (itemStatus utcHost (OfValue (VStr (js "2030-01-01"))) sampleNow
           = Ok (js "fresh") <-> (7 < k)%Z)
       /\ (itemStatus utcHost (OfValue (VStr (js "2030-01-01"))) sampleNow
           = Ok (js "expired")
           \/ itemStatus utcHost (OfValue (VStr (js "2030-01-01"))) sampleNow
              = Ok (js "expiring")
           \/ itemStatus utcHost (OfValue (VStr (js "2030-01-01"))) sampleNow
              = Ok (js "fresh")).
Proof.
  split; [vm_compute; reflexivity|]. split; [vm_compute; reflexivity|].
  apply (itemStatus_partition utcHost (OfValue (VStr (js "2030-01-01")))
           sampleNow 1893456000000 1699920000000);
    vm_compute; reflexivity.
Defined.

(** C2 at [bulkInput], whose quantity is 5000. *)
Lemma quantity_clamped_witness :
  normalizeItem utcHost bulkInput sampleNow sampleUuid = Ok riceRecord
  /\ (exists k : Z, Item.quantity riceRecord = ofZ k /\ (1 <= k <= 999)%Z)
  /\ (forall n, toNumber utcHost (field "quantity" bulkInput) = Ok n ->
        isFinite n = false -> Item.quantity riceRecord = ofZ 1)
  /\ (field "quantity" bulkInput = VNum (ofZ 0) ->
        Item.quantity riceRecord = ofZ 1)
  /\ (field "quantity" bulkInput = VNum (ofZ 5000) ->
        Item.quantity riceRecord = ofZ 999).
Proof.
  split; [vm_compute; reflexivity|].
  apply (quantity_clamped utcHost bulkInput sampleNow sampleUuid riceRecord).
  vm_compute; reflexivity.
Defined.

(** C3, amended, at [sampleRun] from the empty store. *)
Lemma unique_ids_preserved_witness :
  uniqueIds emptyStore
  /\ freshCreates utcHost sampleRun emptyStore
  /\ uniqueIds (run utcHost sampleRun emptyStore).
Proof.
  assert (Hu : uniqueIds emptyStore) by constructor.
  assert (Hf : freshCreates utcHost sampleRun emptyStore).
  { vm_compute. repeat split.
    - intros Hin. inversion Hin.
    - intros Hin. inversion Hin as [|? ? ? Hin']; inversion Hin'. }
  split; [exact Hu|]. split; [exact Hf|].
  exact (unique_ids_preserved utcHost sampleRun emptyStore Hu Hf).
Defined.

(** C4 at [PATCH { quantity: 3 }] on the record of [milkStore]. *)
Lemma update_frame_witness :
  update utcHost (VStr (js "milk-1")) quantityPatch laterNow otherUuid
       milkStore
     = (Ok (Some milkRecord3),
        {| items := [milkRecord3]; file := Some [milkRecord3] |})
  /\ exists index old,
       items milkStore !! index = Some old
       /\ VStr (js "milk-1") = Item.id old
       /\ Item.id milkRecord3 = Item.id old
       /\ Item.createdAt milkRecord3 = Item.createdAt old
       /\ dateToISO utcHost laterNow = Ok (Item.updatedAt milkRecord3)
       /\ normalizeItem utcHost
            (mergedInput old quantityPatch (VStr (js "milk-1")))
            laterNow otherUuid
          = Ok milkRecord3
       /\ (exists r0,
             normalizeItem utcHost (VObj (patched old quantityPatch))
               laterNow otherUuid
             = Ok r0
             /\ Item.name milkRecord3 = Item.name r0
             /\ Item.category milkRecord3 = Item.category r0
             /\ Item.quantity milkRecord3 = Item.quantity r0
             /\ Item.expiresOn milkRecord3 = Item.expiresOn r0
             /\ Item.notes milkRecord3 = Item.notes r0
             /\ Item.updatedAt milkRecord3 = Item.updatedAt r0)
       /\ items {| items := [milkRecord3]; file := Some [milkRecord3] |}
          = <[index := milkRecord3]> (items milkStore)
       /\ file {| items := [milkRecord3]; file := Some [milkRecord3] |}
          = Some (items {| items := [milkRecord3];
                           file := Some [milkRecord3] |}).
Proof.
  split; [vm_compute; reflexivity|].
  apply (update_frame utcHost (VStr (js "milk-1")) quantityPatch laterNow
           otherUuid milkStore milkRecord3
           {| items := [milkRecord3]; file := Some [milkRecord3] |}).
  vm_compute; reflexivity.
Defined.


(** C6 at the creation of [milkRecord] in the empty store. *)
Lemma create_then_list_witness :
  create utcHost milkInput sampleNow sampleUuid emptyStore
  = (Ok milkRecord, milkStore)
  /\ list_items milkStore = list_items emptyStore ++ [milkRecord]
  /\ milkRecord ∈ list_items milkStore
  /\ file milkStore = Some (list_items milkStore)
  /\ forall now', exists a,
       toApiItem utcHost milkRecord now' = Ok a
       /\ apiToObj a
          = itemToObj milkRecord
            ++ [ (js "daysLeft", VNum (ApiItem.daysLeft a));
                 (js "status", VStr (ApiItem.status a)) ]
       /\ (forall k, k <> js "daysLeft" -> k <> js "status" ->
             getProp k (apiToObj a) = getProp k (itemToObj milkRecord))
       /\ daysUntil utcHost (OfValue (VStr (Item.expiresOn milkRecord))) now'
          = Ok (ApiItem.daysLeft a)
       /\ itemStatus utcHost (OfValue (VStr (Item.expiresOn milkRecord))) now'
          = Ok (ApiItem.status a).
Proof.
  assert (H : create utcHost milkInput sampleNow sampleUuid emptyStore
              = (Ok milkRecord, milkStore)) by (vm_compute; reflexivity).
  split; [exact H|].
  exact (create_then_list utcHost milkInput sampleNow sampleUuid emptyStore
           milkRecord milkStore H).
Defined.


(** The answer to that request, and to the same with [status=all]: the
    yogurt, which expires first, comes before the milk. *)
Example get_items_examples :
  getItems utcHost pantry (fun _ => sampleNow) (VStr (js "Expiring"))
  = {| code := 200; payload := ItemList [yogurtApi] 1 |}
  /\ getItems utcHost pantry (fun _ => sampleNow) VUndef
     = {| code := 200; payload := ItemList [yogurtApi; milkApi] 2 |}
  /\ Forall (parses utcHost) (items pantry).
Proof.
  split; [vm_compute; reflexivity|]. split; [vm_compute; reflexivity|].
  repeat constructor; vm_compute; eexists; reflexivity.
Qed.

(** C9 with a window of a minute and a limit of two: [homeIp] at 1000 and
    at 3000, [officeIp] in between. *)
Lemma fixed_window_witness :
  (1 <= 2)%Z
  /\ opens 60000 homeIp 1000 ∅
  /\ Forall (fun r => r.1 = homeIp -> (r.2 - 1000 < 60000)%Z)
       [(officeIp, 2000%Z); (homeIp, 3000%Z)]
  /\ serve 60000 2 [(homeIp, 1000%Z); (officeIp, 2000%Z); (homeIp, 3000%Z)] ∅
     = ([None; None; None], bucketsAfter)
  /\ let n := admitted homeIp
                [(homeIp, 1000%Z); (officeIp, 2000%Z); (homeIp, 3000%Z)]
                [None; None; None] in
     head [None; None; None] = Some (None : option nat)
     /\ (n <= 2)%Z
     /\ bucketsAfter !! homeIp = Some {| windowStartMs := 1000; count := n |}
     /\ (n = 2%Z ->
         forall nowMs,
           ((nowMs - 1000 < 60000)%Z ->
              rateLimitMiddleware 60000 2 homeIp nowMs bucketsAfter
              = (Some 429, bucketsAfter))
           /\ ((nowMs - 1000 >= 60000)%Z ->
                 rateLimitMiddleware 60000 2 homeIp nowMs bucketsAfter
                 = (None,
                    <[homeIp := {| windowStartMs := nowMs; count := 1 |}]>
                      bucketsAfter))).
Proof.
  assert (H1 : (1 <= 2)%Z) by lia.
  assert (H2 : opens 60000 homeIp 1000 ∅) by (vm_compute; exact I).
  assert (H3 : Forall (fun r => r.1 = homeIp -> (r.2 - 1000 < 60000)%Z)
                 [(officeIp, 2000%Z); (homeIp, 3000%Z)]).
  { repeat constructor; simpl; intros _; lia. }
  assert (H4 : serve 60000 2
                 [(homeIp, 1000%Z); (officeIp, 2000%Z); (homeIp, 3000%Z)] ∅
               = ([None; None; None], bucketsAfter))
    by (vm_compute; reflexivity).
  split; [exact H1|]. split; [exact H2|]. split; [exact H3|].
  split; [exact H4|].
  exact (fixed_window 60000 2 homeIp ∅ 1000
           [(officeIp, 2000%Z); (homeIp, 3000%Z)] [None; None; None]
           bucketsAfter H1 H2 H3 H4).
Defined.

(** * Further properties of the server *)

(** ** The status engine *)

Section StatusEngineMore.
Variable h : Host.

Lemma round_absorbs_shift (k shift : Z) :
  (- (MS_PER_DAY / 2) <= shift < MS_PER_DAY / 2)%Z ->
  ((2 * (k * MS_PER_DAY + shift) + MS_PER_DAY) / (2 * MS_PER_DAY))%Z = k.
Proof.
  change MS_PER_DAY with 86400000%Z. intros Hs.
  Z.to_euclidean_division_equations. lia.
Qed.

(** X1.  [Math.round] absorbs what daylight saving adds to or takes from
    the distance of two local midnights: when the starts of day of the
    expiry date and of now lie [k] days apart, give or take less than half a
    day, [daysUntil] is [k]. *)
Theorem daysUntil_absorbs_shift expiryDate now (e t k shift : Z) :
  startOfDay h (OfDate now) = Ok (Some t) ->
  startOfDay h expiryDate = Ok (Some e) ->
  (e - t = k * MS_PER_DAY + shift)%Z ->
  (- (MS_PER_DAY / 2) <= shift < MS_PER_DAY / 2)%Z ->
  daysUntil h expiryDate now = Ok (ofZ k).
Proof.
  intros Ht He Hd Hs. rewrite (daysUntil_valid h _ _ _ _ Ht He).
  by rewrite Hd, round_absorbs_shift.
Qed.

(** X2.  As the clock advances the days left never grow and the status
    never improves: an item that is expired stays expired, and an item that
    is fresh later was fresh before. *)
Theorem status_never_recovers expiryDate now now' (e t t' : Z) :
  startOfDay h expiryDate = Ok (Some e) ->
  startOfDay h (OfDate now) = Ok (Some t) ->
  startOfDay h (OfDate now') = Ok (Some t') ->
  (t <= t')%Z ->
  exists k k' : Z,
    daysUntil h expiryDate now = Ok (ofZ k)
    /\ daysUntil h expiryDate now' = Ok (ofZ k')
    /\ (k' <= k)%Z
    /\ (itemStatus h expiryDate now = Ok (js "expired") ->
        itemStatus h expiryDate now' = Ok (js "expired"))
    /\ (itemStatus h expiryDate now' = Ok (js "fresh") ->
        itemStatus h expiryDate now = Ok (js "fresh")).
Proof.
  intros He Ht Ht' Hle.
  pose proof (daysUntil_valid h _ _ _ _ Ht He) as Ek.
  pose proof (daysUntil_valid h _ _ _ _ Ht' He) as Ek'.
  eexists. eexists. split; [exact Ek|]. split; [exact Ek'|].
  assert (Hk : ((2 * (e - t') + MS_PER_DAY) / (2 * MS_PER_DAY)
                <= (2 * (e - t) + MS_PER_DAY) / (2 * MS_PER_DAY))%Z).
  { apply Z.div_le_mono; [done|lia]. }
  split; [exact Hk|].
  rewrite (itemStatus_of_days h _ _ _ Ek), (itemStatus_of_days h _ _ _ Ek').
  split; repeat case_bool_decide; intros E; first [done | lia].
Qed.

(** X3.  In the read representation the status is a function of the days
    left: expired below 0, expiring up to 7, fresh otherwise.  When the
    stored expiry date is a string [Date.parse] cannot read, or the clock
    gives an invalid date, the days left are [NaN] and the status is
    ["fresh"]. *)
Theorem api_status_follows_days (it : item) (now : date) (a : apiItem) :
  toApiItem h it now = Ok a ->
  ApiItem.base a = it
  /\ ApiItem.status a
     = (if numLt (ApiItem.daysLeft a) (ofZ 0) then js "expired"
        else if numLe (ApiItem.daysLeft a) (ofZ 7) then js "expiring"
        else js "fresh")
  /\ (dateParse h (Item.expiresOn it) = None \/ now = None ->
      ApiItem.daysLeft a = NaN /\ ApiItem.status a = js "fresh").
Proof.
  unfold toApiItem, itemStatus. intros H.
  destruct (daysUntil h _ now) as [n|] eqn:En; cbn [bindR] in H; [|done].
  assert (Ea : a = {| ApiItem.base := it; ApiItem.daysLeft := n;
                      ApiItem.status :=
                        if numLt n (ofZ 0) then js "expired"
                        else if numLe n (ofZ 7) then js "expiring"
                        else js "fresh" |}).
  { destruct (numLt n (ofZ 0)); [|destruct (numLe n (ofZ 7))];
      cbn [bindR] in H; congruence. }
  subst a. cbn [ApiItem.base ApiItem.daysLeft ApiItem.status].
  split; [done|]. split; [done|].
  intros Hbad. assert (n = NaN) as ->; [|done].
  unfold daysUntil in En. rewrite startOfDay_string in En.
  cbn [startOfDay newDate bindR] in En. injection En as <-.
  destruct Hbad as [-> | ->]; cbn [setHours0 getTime];
    by destruct (getTime _).
Qed.

End StatusEngineMore.

(** ** The rate limiter *)

Section RateLimiterMore.
Variables windowMs maxRequests : Z.

Lemma limiter_dom ip nowMs buckets :
  dom (limiter windowMs maxRequests ip nowMs buckets).2 = {[ ip ]} ∪ dom buckets.
Proof.
  unfold limiter. destruct (buckets !! ip) as [cur|] eqn:E; simpl;
    [|by rewrite dom_insert_L].
  apply elem_of_dom_2 in E.
  destruct (bool_decide _); [|destruct (bool_decide _)]; simpl;
    rewrite ?dom_insert_L; try done.
  symmetry. apply subseteq_union_1_L. by apply singleton_subseteq_l.
Qed.

Lemma limiter_counts ip nowMs buckets :
  (1 <= maxRequests)%Z -> countsWithin maxRequests buckets ->
  countsWithin maxRequests (limiter windowMs maxRequests ip nowMs buckets).2.
Proof.
  intros HN Hb. unfold limiter.
  destruct (buckets !! ip) as [cur|] eqn:E; simpl.
  - pose proof (Hb _ _ E) as Hc. simpl in Hc.
    destruct (bool_decide _); [|case_bool_decide]; simpl; try done;
      apply map_Forall_insert_2; simpl; try done; lia.
  - apply map_Forall_insert_2; simpl; [lia|done].
Qed.

(** X14.  With a limit of at least 1 and every counter between 1 and the
    limit, one call of the limiter keeps the counters so, reports a
    remaining allowance between 0 and the limit minus 1, reports 0 whenever
    it refuses, and on admission reports the limit minus the counter it
    leaves for the caller. *)
Theorem remaining_within_limit ip nowMs buckets :
  (1 <= maxRequests)%Z ->
  countsWithin maxRequests buckets ->
  let (v, buckets') := limiter windowMs maxRequests ip nowMs buckets in
  countsWithin maxRequests buckets'
  /\ (0 <= remaining v <= maxRequests - 1)%Z
  /\ (allowed v = false -> remaining v = 0%Z /\ buckets' = buckets)
  /\ exists current, buckets' !! ip = Some current
       /\ (allowed v = true -> remaining v = (maxRequests - count current)%Z).
Proof.
  intros HN Hb. pose proof (limiter_counts ip nowMs buckets HN Hb) as Hc.
  destruct (limiter _ _ ip nowMs buckets) as [v buckets'] eqn:E.
  split; [exact Hc|]. clear Hc. unfold limiter in E.
  destruct (buckets !! ip) as [cur|] eqn:Ecur.
  - pose proof (Hb _ _ Ecur) as Hcur. simpl in Hcur.
    destruct (bool_decide _); [|case_bool_decide];
      injection E as <- <-; simpl;
      (split; [lia|]); (split; [done|]);
      rewrite ?lookup_insert_eq; eauto.
    exists cur. by split.
  - injection E as <- <-. simpl. split; [lia|]. split; [done|].
    rewrite lookup_insert_eq. eauto.
Qed.

(** X15.  The limiter never forgets an address: after a run of requests
    the addresses with a bucket are those that had one before and those that
    sent a request, every request got either [next()] or 429, and the
    counters stay between 1 and the limit. *)
Theorem buckets_only_grow (reqs : list (jstring * Z)) :
  forall buckets statuses buckets',
  (1 <= maxRequests)%Z ->
  countsWithin maxRequests buckets ->
  serve windowMs maxRequests reqs buckets = (statuses, buckets') ->
  dom buckets' = dom buckets ∪ list_to_set reqs.*1
  /\ countsWithin maxRequests buckets'
  /\ length statuses = length reqs
  /\ Forall (fun s => s = None \/ s = Some 429%nat) statuses.
Proof.
  induction reqs as [|[ip t] reqs IH]; intros buckets statuses buckets' HN Hb.
  - intros E. injection E as <- <-. simpl.
    split; [by rewrite (right_id_L ∅ (∪))|]. split; [done|]. by split.
  - cbn [serve]. unfold rateLimitMiddleware.
    pose proof (limiter_dom ip t buckets) as Hd.
    pose proof (limiter_counts ip t buckets HN Hb) as Hc.
    destruct (limiter _ _ ip t buckets) as [v b1]. simpl in Hd, Hc.
    assert (Hs : exists s, (if negb (allowed v) then (Some 429%nat, b1)
                            else (None, b1)) = (s, b1)
                           /\ (s = None \/ s = Some 429%nat)).
    { destruct (allowed v); simpl; eauto. }
    destruct Hs as (s & -> & Hs).
    destruct (serve _ _ reqs b1) as [rs b2] eqn:Es.
    intros [= <- <-].
    destruct (IH _ _ _ HN Hc Es) as (Hd2 & Hc2 & Hl & Hf).
    split.
    { rewrite Hd2, Hd. simpl.
      by rewrite (comm_L (∪) {[ip]}), (assoc_L (∪)). }
    split; [done|]. split; [simpl; by rewrite Hl|]. by constructor.
Qed.

End RateLimiterMore.

(** ** The store and the routes that write *)

Section StoreMore.
Variable h : Host.

Lemma toValue_inj (p q : present) : toValue p = toValue q -> p = q.
Proof. destruct p, q; simpl; congruence. Qed.

(** Against the string of a path parameter, [===] holds for the items
    whose id is that string and for no other. *)
Lemma strictEq_string (p : present) (s : jstring) :
  strictEq p (VStr s) = true <-> p = PStr s.
Proof.
  destruct p as [b|n|s'|xs|fs]; simpl; try by split.
  rewrite jstr_eqb_eq. split; congruence.
Qed.

Lemma findIndex_skip (p : item -> bool) (l1 l2 : list item) (x : item) :
  Forall (fun y => p y = false) l1 -> p x = true ->
  findIndex p (l1 ++ x :: l2) = Some (length l1).
Proof.
  induction 1 as [|y l1 Hy _ IH]; intros Hx; simpl.
  - by rewrite Hx.
  - by rewrite Hy, IH.
Qed.

Lemma findIndex_absent (p : item -> bool) (l : list item) :
  Forall (fun y => p y = false) l -> findIndex p l = None.
Proof. induction 1 as [|y l Hy _ IH]; simpl; [done|]. by rewrite Hy, IH. Qed.

Lemma delete_middle (l1 l2 : list item) (x : item) :
  delete (length l1) (l1 ++ x :: l2) = l1 ++ l2.
Proof. induction l1 as [|y l1 IH]; simpl; [done|]. by rewrite IH. Qed.

Lemma no_string_id (s : jstring) (l : list item) :
  Forall (fun x => Item.id x <> PStr s) l ->
  Forall (fun x => strictEq (Item.id x) (VStr s) = false) l.
Proof.
  intros Hl. eapply Forall_impl; [exact Hl|]. intros x Hx. simpl in Hx.
  destruct (strictEq (Item.id x) (VStr s)) eqn:E; [|done].
  by apply strictEq_string in E.
Qed.

Lemma remove_first_match_aux (s : jstring) (l1 l2 : list item) (it : item)
    (f : option (list item)) :
  Item.id it = PStr s ->
  Forall (fun x => Item.id x <> PStr s) l1 ->
  remove (VStr s) {| items := l1 ++ it :: l2; file := f |}
  = (true, {| items := l1 ++ l2; file := Some (l1 ++ l2) |}).
Proof.
  intros Hit Hl1. unfold remove. cbn [items].
  rewrite (findIndex_skip _ l1 l2 it).
  - unfold persist. cbn [items file]. by rewrite delete_middle.
  - by apply no_string_id.
  - by apply strictEq_string.
Qed.

(** X8.  [remove] deletes the first item whose id is the given string and
    no other, also when later items share the id: it answers [true], the
    items before and after the deleted one keep their order, and the
    shortened collection is written to the file. *)
Theorem remove_first_match (s : jstring) (l1 l2 : list item) (it : item)
    (f : option (list item)) :
  Item.id it = PStr s ->
  Forall (fun x => Item.id x <> PStr s) l1 ->
  remove (VStr s) {| items := l1 ++ it :: l2; file := f |}
  = (true, {| items := l1 ++ l2; file := Some (l1 ++ l2) |}).
Proof. apply remove_first_match_aux. Qed.

Lemma remove_true id st st' :
  remove id st = (true, st') ->
  exists index x,
    items st !! index = Some x /\ toValue (Item.id x) = id
    /\ st' = persist {| items := delete index (items st); file := file st |}.
Proof.
  unfold remove.
  destruct (findIndex _ (items st)) as [index|] eqn:E; [|done].
  intros [= <-]. destruct (findIndex_Some _ _ _ E) as (x & Hx & Hp).
  exists index, x. split; [done|]. split; [|done]. by apply strictEq_eq.
Qed.

Lemma others_differ (l : list item) (index : nat) (x y : item) :
  NoDup (Item.id <$> l) -> l !! index = Some x -> y ∈ delete index l ->
  Item.id y <> Item.id x.
Proof.
  intros Hnd Hx Hy.
  rewrite <- (take_drop_middle l index x Hx) in Hnd.
  rewrite delete_take_drop in Hy.
  rewrite fmap_app, fmap_cons in Hnd.
  apply NoDup_app in Hnd as (_ & Hl & Hr).
  apply NoDup_cons in Hr as [Hr _].
  apply elem_of_app in Hy as [Hy|Hy]; intros E.
  - apply (Hl (Item.id y)); [by apply list_elem_of_fmap_2|].
    rewrite E. by left.
  - apply Hr. rewrite <- E. by apply list_elem_of_fmap_2.
Qed.

(** X9.  In a collection without duplicate ids a removed id is gone: after
    [remove] has answered [true], a second [remove] of the same id answers
    [false] and an [update] of it answers [null], both leaving the store as
    it is; the ids stay unique and the collection is one item shorter. *)
Theorem removed_id_is_gone id patch now uuid st st' :
  uniqueIds st ->
  remove id st = (true, st') ->
  remove id st' = (false, st')
  /\ update h id patch now uuid st' = (Ok None, st')
  /\ uniqueIds st'
  /\ S (length (items st')) = length (items st).
Proof.
  intros Hu Hr. destruct (remove_true _ _ _ Hr) as (index & x & Hx & Hid & ->).
  unfold persist. cbn [items file].
  assert (Hnone : findIndex (fun it => strictEq (Item.id it) id)
                    (delete index (items st)) = None).
  { apply findIndex_absent, Forall_forall. intros y Hy.
    destruct (strictEq (Item.id y) id) eqn:E; [|done].
    apply strictEq_eq in E. rewrite <- Hid in E. apply toValue_inj in E.
    by destruct (others_differ _ _ _ _ Hu Hx Hy). }
  unfold remove, update. cbn [items]. rewrite Hnone.
  split; [done|]. split; [done|]. split.
  - unfold uniqueIds. cbn [items]. rewrite list_fmap_delete.
    eapply sublist_NoDup; [exact Hu|]. apply sublist_delete.
  - rewrite length_delete; [|by eexists].
    apply lookup_lt_Some in Hx. lia.
Qed.









(** X12.  When no item has the string of the path as its id, PATCH and
    DELETE answer 404 and leave the store alone, whatever the body: the id
    is looked up before the patch is validated, and an item whose id is not
    a string, such as the number 7, is out of reach of both routes. *)
Theorem unknown_id_not_found (id : jstring) (payload : value) (now1 now2 : date)
    (uuid : jstring) (st : store) :
  Forall (fun it => Item.id it <> PStr id) (items st) ->
  patchItem h id payload now1 now2 uuid st = (NotFound, st)
  /\ deleteItem id st = (NotFound, st).
Proof.
  intros Hno. apply no_string_id, findIndex_absent in Hno.
  unfold patchItem, update, deleteItem, remove. by rewrite Hno.
Qed.

(** X13.  POST and DELETE compose to nothing: when POST has answered with
    an item whose id is a string no older item has, DELETE of that id
    answers 204 and leaves the collection as it was before the POST, with
    the file holding it. *)
Theorem post_then_delete (s : jstring) (payload : value) (now1 now2 : date)
    (uuid : jstring) (st st1 : store) (code : nat) (a : apiItem) :
  postItem h payload now1 now2 uuid st = (ItemReply code a, st1) ->
  Item.id (ApiItem.base a) = PStr s ->
  Forall (fun it => Item.id it <> PStr s) (items st) ->
  code = 201%nat
  /\ deleteItem s st1
     = (NoContent, {| items := items st; file := Some (items st) |}).
Proof.
  unfold postItem, create. intros Hpost Hid Hfresh.
  destruct (normalizeItem h payload now1 uuid) as [r|e]; [|done].
  destruct (toApiItem_Ok h r now2) as (a' & Ea & Hbase & _).
  rewrite Ea in Hpost. injection Hpost as <- <- <-. split; [done|].
  rewrite Hbase in Hid. unfold deleteItem, persist. cbn [items file].
  pose proof (remove_first_match_aux s (items st) [] r (Some (items st ++ [r]))
                Hid Hfresh) as Hr.
  rewrite app_nil_r in Hr. by rewrite Hr.
Qed.

End StoreMore.

(** ** What the normaliser reads, and what a patch changes *)

Section NormaliserMore.
Variable h : Host.

Lemma normalizeItem_ext (fs fs' : props) (now : date) (uuid : jstring) :
  Forall (fun k => field k (VObj fs) = field k (VObj fs')) itemFields ->
  normalizeItem h (VObj fs) now uuid = normalizeItem h (VObj fs') now uuid.
Proof.
  unfold itemFields. intros H.
  repeat match type of H with
         | Forall _ (_ :: _) => apply Forall_cons in H as [? H]
         end.
  unfold normalizeItem. cbn [falsy typeofObject isArray orb negb].
  repeat match goal with
         | E : field _ (VObj fs) = _ |- _ => rewrite E; clear E
         end.
  reflexivity.
Qed.

Lemma jstr_eqb_false (a b : jstring) : a <> b -> jstr_eqb a b = false.
Proof.
  intros Hne. destruct (jstr_eqb a b) eqn:E; [|done].
  by apply jstr_eqb_eq in E.
Qed.

(** X4.  [normalizeItem] reads seven properties of its input and no other:
    setting a property of any other name, [updatedAt] included, changes
    neither the record it returns nor the error it raises. *)
Theorem unknown_properties_ignored (k : jstring) (v : value) (fs : props)
    (now : date) (uuid : jstring) :
  k ∉ (js <$> itemFields) ->
  normalizeItem h (VObj (setProp k v fs)) now uuid
  = normalizeItem h (VObj fs) now uuid.
Proof.
  intros Hk. apply normalizeItem_ext, Forall_forall. intros f Hf.
  cbn [field]. apply getProp_setProp_ne. intros <-.
  apply Hk. by apply list_elem_of_fmap_2.
Qed.

Lemma hasProp_false (k : jstring) (fs : props) :
  k ∉ fs.*1 -> hasProp k fs = false.
Proof.
  unfold hasProp. induction fs as [|[k' v] fs IH]; intros Hk; [done|].
  simpl in *. apply not_elem_of_cons in Hk as [Hne Hk].
  by rewrite jstr_eqb_false, IH.
Qed.

Lemma getProp_absent (k : jstring) (fs : props) :
  k ∉ fs.*1 -> getProp k fs = VUndef.
Proof.
  induction fs as [|[k' v] fs IH]; intros Hk; [done|].
  simpl in *. apply not_elem_of_cons in Hk as [Hne Hk].
  by rewrite jstr_eqb_false, IH.
Qed.

(** What a spread leaves under a key it does not copy. *)
Lemma getProp_fold_other (k : jstring) (ps : props) : forall target,
  k ∉ ps.*1 ->
  getProp k (fold_left (fun acc kv => setProp kv.1 kv.2 acc) ps target)
  = getProp k target.
Proof.
  induction ps as [|[k' v] ps IH]; intros target Hk; [done|].
  simpl in *. apply not_elem_of_cons in Hk as [Hne Hk].
  rewrite IH by done. by apply getProp_setProp_ne.
Qed.

(** What a spread leaves under a key it copies once. *)
Lemma getProp_fold (k : jstring) (ps : props) : forall target,
  NoDup ps.*1 ->
  getProp k (fold_left (fun acc kv => setProp kv.1 kv.2 acc) ps target)
  = if hasProp k ps then getProp k ps else getProp k target.
Proof.
  induction ps as [|[k' v] ps IH]; intros target Hnd; [done|].
  simpl in *. apply NoDup_cons in Hnd as [Hk' Hnd].
  unfold hasProp. cbn [existsb fst]. fold (hasProp k ps).
  destruct (jstr_eqb k k') eqn:E.
  - apply jstr_eqb_eq in E as ->. simpl.
    rewrite getProp_fold_other by done. apply getProp_setProp_eq.
  - simpl. rewrite IH by done.
    rewrite getProp_setProp_ne; [done|]. intros ->.
    by rewrite jstr_eqb_refl in E.
Qed.

Lemma js_inj (a b : string) : js a = js b -> a = b.
Proof.
  unfold js. revert b. induction a as [|c a IH]; intros [|d b]; simpl;
    try done.
  intros [= Hc Hab]. f_equal; [|by apply IH].
  by rewrite <- (ascii_N_embedding c), <- (ascii_N_embedding d), Hc.
Qed.

(** X5.  The object [update] normalises: [id] is the id looked up,
    [createdAt] is that of the stored item, every other property the patch
    object has is taken from the patch, and every property it has not is
    that of the stored item. *)
Theorem patch_overrides_named_fields (old : item) (fs : props) (id : value)
    (k : string) :
  NoDup fs.*1 ->
  field k (mergedInput old (VObj fs) id)
  = if bool_decide (k = "id"%string) then id
    else if bool_decide (k = "createdAt"%string)
         then toValue (Item.createdAt old)
    else if hasProp (js k) fs then getProp (js k) fs
    else field k (VObj (itemToObj old)).
Proof.
  intros Hnd. case_bool_decide as Hid; [subst; apply id_merged|].
  case_bool_decide as Hc; [subst; apply createdAt_merged|].
  rewrite field_merged.
  - unfold patched. rewrite spread_item. cbn [field]. unfold spread.
    cbn [ownProps]. by apply getProp_fold.
  - intros E. by apply js_inj in E.
  - intros E. by apply js_inj in E.
Qed.

Lemma pretty_N_go_digit (x : N) : forall s,
  (0 < x)%N \/ startsWithDigit s -> startsWithDigit (pretty_N_go x s).
Proof.
  induction (N.lt_wf_0 x) as [x _ IH]; intros s Hs.
  assert (x = 0 \/ 0 < x)%N as [->|Hx] by lia.
  - rewrite pretty_N_go_0. destruct Hs as [Hs|Hs]; [lia|done].
  - rewrite pretty_N_go_step by done. apply IH; [by apply N.div_lt|].
    right. simpl. unfold pretty_N_char. by repeat case_match.
Qed.

(** The name of an index is written in decimal digits. *)
Lemma indexKey_digit (i : nat) :
  exists c rest, indexKey i = c :: rest /\ isDecimalDigit c = true.
Proof.
  assert (Hd : startsWithDigit (pretty i)).
  { unfold pretty, pretty_nat, pretty, pretty_N.
    case_decide; [done|]. apply pretty_N_go_digit. lia. }
  unfold indexKey, js. destruct (pretty i) as [|c s]; [done|].
  simpl. eauto.
Qed.

Lemma indexKeys_digits {A} (f : nat -> A -> value) (xs : list A) (k : jstring) :
  k ∈ (imap (fun i x => (indexKey i, f i x)) xs).*1 ->
  exists c rest, k = c :: rest /\ isDecimalDigit c = true.
Proof.
  intros Hk. apply list_elem_of_fmap in Hk as ([k' v] & -> & Hk).
  apply list_elem_of_lookup in Hk as (i & Hi).
  rewrite list_lookup_imap in Hi.
  destruct (xs !! i); [|done]. injection Hi as <- _. apply indexKey_digit.
Qed.

(** A patch that is not an object sets no property [normalizeItem]
    reads. *)
Lemma spread_non_object (target : props) (patch : value) (k : string) :
  (forall fs, patch <> VObj fs) -> k ∈ itemFields ->
  getProp (js k) (spread target patch) = getProp (js k) target.
Proof.
  intros Hno Hk. unfold spread. apply getProp_fold_other. intros Hin.
  assert (Hd : exists c rest, js k = c :: rest /\ isDecimalDigit c = true).
  { destruct patch as [| | | |s|xs|fs]; simpl in Hin;
      try by apply elem_of_nil in Hin.
    - by apply (indexKeys_digits (fun _ c => VStr [c])) in Hin.
    - by apply (indexKeys_digits (fun _ x => x)) in Hin.
    - by destruct (Hno fs). }
  destruct Hd as (c & rest & E & Hc). unfold itemFields in Hk.
  repeat (apply elem_of_cons in Hk as [->|Hk];
          [vm_compute in E; injection E as <- _; discriminate Hc|]).
  by apply elem_of_nil in Hk.
Qed.

(** X6.  A patch that is no object, such as a JSON array, patches
    nothing: [update] treats it as the empty object, where [create]
    rejects it as a payload. *)
Theorem non_object_patch_is_empty (id patch : value) (now : date)
    (uuid : jstring) (st : store) :
  (forall fs, patch <> VObj fs) ->
  update h id patch now uuid st = update h id (VObj []) now uuid st
  /\ create h patch now uuid st = (Err PayloadNotObject, st).
Proof.
  intros Hno. split.
  - unfold update.
    destruct (findIndex _ (items st)) as [index|]; [|done].
    destruct (items st !! index) as [old|]; [|done].
    assert (E : normalizeItem h (mergedInput old patch id) now uuid
                = normalizeItem h (mergedInput old (VObj []) id) now uuid).
    { apply normalizeItem_ext, Forall_forall. intros k Hk.
      change (field k (mergedInput old patch id)
              = field k (mergedInput old (VObj []) id)).
      assert (Hp : field k (VObj (patched old patch))
                   = field k (VObj (patched old (VObj [])))).
      { cbn [field]. unfold patched. by apply spread_non_object. }
      unfold itemFields in Hk.
      repeat (apply elem_of_cons in Hk as [->|Hk];
              [first [ by rewrite !id_merged
                     | by rewrite !createdAt_merged
                     | by rewrite !field_merged ]|]).
      by apply elem_of_nil in Hk. }
    by rewrite E.
  - unfold create.
    by rewrite (proj1 (normalizeItem_rejects h patch now uuid) Hno).
Qed.

(** X7.  With an invalid date for now [normalizeItem] returns no record:
    it raises whatever the input is, and for an input it accepts under a
    valid now it raises the RangeError of [toISOString]. *)
Theorem invalid_now_never_normalizes (input : value) (uuid : jstring) :
  (exists e, normalizeItem h input None uuid = Err e)
  /\ (forall t r, normalizeItem h input (Some t) uuid = Ok r ->
        normalizeItem h input None uuid = Err RangeError).
Proof.
  unfold normalizeItem. destruct (_ || _); [split; [eauto|done]|].
  destruct (newDate h _) as [d|e]; cbn [bindR]; [|split; [eauto|done]].
  destruct (isNaN _); [split; [eauto|done]|].
  destruct (normalizeString h _ _ 80 _) as [nm|e]; cbn [bindR];
    [|split; [eauto|done]].
  destruct (falsy _); [split; [eauto|done]|].
  destruct (toNumber h _) as [q|e]; cbn [bindR]; [|split; [eauto|done]].
  destruct (normalizeString h _ _ 40 _) as [cat|e]; cbn [bindR];
    [|split; [eauto|done]].
  destruct (startOfDay h _) as [sod|e]; cbn [bindR]; [|split; [eauto|done]].
  destruct (dateToISO h sod) as [iso|e]; cbn [bindR]; [|split; [eauto|done]].
  destruct (normalizeString h _ _ 240 _) as [nt|e]; cbn [bindR];
    [|split; [eauto|done]].
  destruct (presence _); cbn [bindR dateToISO]; split; eauto.
Qed.

End NormaliserMore.

(** ** Configuration *)

Section ConfigurationMore.
Variable h : Host.

Lemma roundToDouble_pos (m : Z) : (0 < m)%Z -> (0 < roundToDouble m)%Z.
Proof.
  intros Hm. unfold roundToDouble.
  destruct (m <? 2 ^ 53)%Z eqn:E; [done|].
  apply Z.ltb_ge in E.
  assert (He : (0 <= Z.log2 m - 52)%Z).
  { pose proof (Z.log2_le_mono _ _ E) as Hl.
    change (Z.log2 (2 ^ 53)) with 53%Z in Hl. lia. }
  set (e := (Z.log2 m - 52)%Z) in *.
  assert (Hp : (0 < 2 ^ e)%Z) by (apply Z.pow_pos_nonneg; lia).
  assert (Hq : (0 < m / 2 ^ e)%Z).
  { apply Z.div_str_pos. split; [done|].
    pose proof (Z.log2_spec m Hm) as [Hl _].
    etrans; [|exact Hl]. apply Z.pow_le_mono_r; lia. }
  cbv zeta. repeat case_match; nia.
Qed.

Lemma parseInt10_cases (s : jstring) :
  parseInt10 s = NaN \/ parseInt10 s = PInf \/ parseInt10 s = NInf
  \/ exists n : Z, parseInt10 s = ofZ n /\ (n = 0 \/ n < 0 \/ 0 < n)%Z.
Proof.
  unfold parseInt10. destruct (match dropWhile _ s with [] => _ | _ => _ end)
    as [negative digits].
  destruct (readInteger digits None) as [n|]; [|by left].
  unfold numberOfInteger. cbv zeta.
  destruct (2 ^ 1024 <=? _)%Z.
  - destruct (_ <? 0)%Z; auto.
  - right. right. right. eexists. split; [done|lia].
Qed.

Lemma parsePositiveInt_env (e : option jstring) (fallback : num) :
  parsePositiveInt h (envValue e) fallback
  = Ok (let parsed := parseInt10 (default [] e) in
        if isFinite parsed && numLt (ofZ 0) parsed then parsed else fallback).
Proof. by destruct e. Qed.

(** X16.  Whatever the environment variable holds, [parsePositiveInt]
    returns, without raising, either the fallback or a finite integer above
    0; it returns the fallback when the variable is not set.  So with their
    fallbacks of 60000 and 180 the window and the limit of the rate limiter
    are integers of at least 1. *)
Theorem parsePositiveInt_positive (e : option jstring) (d : Z) :
  (0 < d)%Z ->
  (exists k : Z, parsePositiveInt h (envValue e) (ofZ d) = Ok (ofZ k)
                 /\ (0 < k)%Z /\ (e = None -> k = d))
  /\ (exists w : Z, rateLimitWindowMs h (envValue e) = Ok (ofZ w) /\ (1 <= w)%Z)
  /\ (exists m : Z, rateLimitMax h (envValue e) = Ok (ofZ m) /\ (1 <= m)%Z).
Proof.
  assert (Hgen : forall d', (0 < d')%Z ->
            exists k : Z, parsePositiveInt h (envValue e) (ofZ d') = Ok (ofZ k)
                          /\ (0 < k)%Z /\ (e = None -> k = d')).
  { intros d' Hd. rewrite parsePositiveInt_env. cbv zeta.
    destruct e as [s|]; [|exists d'; by vm_compute].
    cbn [default id].
    destruct (parseInt10_cases s) as [-> | [-> | [-> | (n & -> & Hn)]]];
      try (exists d'; by cbn).
    change (isFinite (ofZ n)) with true. rewrite numLt_ofZ. cbn [andb].
    case_bool_decide; [exists n|exists d']; done. }
  intros Hd. split; [by apply Hgen|].
  unfold rateLimitWindowMs, rateLimitMax.
  split; [destruct (Hgen 60000%Z) as (k & -> & ? & _)
         |destruct (Hgen 180%Z) as (k & -> & ? & _)];
    try done; exists k; split; [done|lia | done|lia].
Qed.

Lemma digit_not_space (c : N) : isDecimalDigit c = true -> isWhiteSpace c = false.
Proof.
  unfold isDecimalDigit. intros Hc. apply andb_true_iff in Hc as [Hl Hu].
  apply N.leb_le in Hl, Hu.
  assert (c = 48 \/ c = 49 \/ c = 50 \/ c = 51 \/ c = 52 \/ c = 53 \/ c = 54
          \/ c = 55 \/ c = 56 \/ c = 57)%N as Hcases by lia.
  repeat (destruct Hcases as [->|Hcases]; [by vm_compute|]).
  subst. by vm_compute.
Qed.

Lemma dropWhile_all {A} (p : A -> bool) (l rest : list A) :
  Forall (fun x => p x = true) l -> dropWhile p (l ++ rest) = dropWhile p rest.
Proof. induction 1 as [|x l Hx _ IH]; simpl; [done|]. by rewrite Hx. Qed.

Lemma readInteger_digits (ds : jstring) : forall rest acc,
  Forall (fun c => isDecimalDigit c = true) ds ->
  readInteger (ds ++ rest) acc
  = readInteger rest
      (match ds with
       | [] => acc
       | _ => Some (fold_left (fun a c => (10 * a + (Z.of_N c - 48))%Z) ds
                      (default 0%Z acc))
       end).
Proof.
  induction ds as [|c ds IH]; intros rest acc Hds; [done|].
  apply Forall_cons in Hds as [Hc Hds]. simpl. rewrite Hc, IH by done.
  by destruct ds.
Qed.

Lemma decimalValue_nonneg (ds : jstring) :
  Forall (fun c => isDecimalDigit c = true) ds -> (0 <= decimalValue ds)%Z.
Proof.
  unfold decimalValue. intros Hds.
  cut (forall a : Z, (0 <= a)%Z ->
         (0 <= fold_left (fun acc c => 10 * acc + (Z.of_N c - 48)) ds a)%Z);
    [intros Hcut; by apply Hcut|].
  induction Hds as [|x l Hx _ IH]; intros a Ha; [done|].
  simpl. apply IH. unfold isDecimalDigit in Hx.
  apply andb_true_iff in Hx as [Hx _]. apply N.leb_le in Hx. lia.
Qed.

(** X17.  [parsePositiveInt] reads the decimal digits that follow the
    leading white space and ignores what comes after them: when they denote
    a number above 0 and below [2 ^ 53] that number is the result, and when
    they denote 0 the fallback is. *)
Theorem parsePositiveInt_reads_prefix (pad ds rest : jstring) (fallback : num) :
  Forall (fun c => isWhiteSpace c = true) pad ->
  ds <> [] ->
  Forall (fun c => isDecimalDigit c = true) ds ->
  match rest with c :: _ => isDecimalDigit c = false | [] => True end ->
  (decimalValue ds < 2 ^ 53)%Z ->
  parsePositiveInt h (VStr (pad ++ ds ++ rest)) fallback
  = Ok (if bool_decide (0 < decimalValue ds)%Z then ofZ (decimalValue ds)
        else fallback).
Proof.
  intros Hpad Hne Hds Hrest Hsmall.
  unfold parsePositiveInt. cbn [orElse presence toValue toStringV bindR].
  cbv zeta.
  assert (Hparse : parseInt10 (pad ++ ds ++ rest) = ofZ (decimalValue ds)).
  { unfold parseInt10. rewrite dropWhile_all by done.
    destruct ds as [|c ds']; [done|].
    pose proof Hds as Hds'. apply Forall_cons in Hds' as [Hc _].
    cbn [app dropWhile]. rewrite (digit_not_space c Hc).
    assert (Hsign : c <> 45%N /\ c <> 43%N).
    { split; intros ->; discriminate Hc. }
    destruct Hsign as [H45 H43].
    assert (Hbody : (match c :: ds' ++ rest with
                     | 45%N :: r => (true, r)
                     | 43%N :: r => (false, r)
                     | _ => (false, c :: ds' ++ rest)
                     end) = (false, (c :: ds') ++ rest)).
    { destruct c as [|p]; [done|].
      repeat (destruct p as [p|p|]; try done). }
    rewrite Hbody. rewrite readInteger_digits by done.
    assert (Hstop : forall acc, readInteger rest acc = acc).
    { intros acc. destruct rest as [|r rest']; [done|].
      simpl. by rewrite Hrest. }
    rewrite Hstop.
    change (fold_left _ (c :: ds') (default 0%Z None))
      with (decimalValue (c :: ds')).
    pose proof (decimalValue_nonneg _ Hds) as Hnn.
    set (v := decimalValue (c :: ds')) in *.
    unfold numberOfInteger, roundToDouble. cbv zeta.
    assert (Hbig : (2 ^ 53 < 2 ^ 1024)%Z) by (apply Z.pow_lt_mono_r; lia).
    rewrite Z.abs_eq by done.
    rewrite (proj2 (Z.ltb_lt _ _) Hsmall).
    rewrite (proj2 (Z.leb_gt _ _)) by lia.
    by rewrite (proj2 (Z.ltb_ge _ _) Hnn). }
  rewrite Hparse. change (isFinite (ofZ _)) with true. by rewrite numLt_ofZ.
Qed.

End ConfigurationMore.

(** ** The allow list and the origin check *)

Section Origins.

Lemma dropWhile_head {A} (p : A -> bool) (l : list A) (x : A) :
  head (dropWhile p l) = Some x -> p x = false.
Proof.
  induction l as [|y l IH]; simpl; [done|].
  destruct (p y) eqn:E; [done|]. simpl. by intros [= <-].
Qed.

Lemma dropWhile_id {A} (p : A -> bool) (l : list A) :
  (forall x, head l = Some x -> p x = false) -> dropWhile p l = l.
Proof. destruct l as [|y l]; simpl; [done|]. intros H. by rewrite H. Qed.

Lemma dropWhile_suffix {A} (p : A -> bool) (l : list A) :
  exists pre, l = pre ++ dropWhile p l.
Proof.
  induction l as [|y l [pre IH]]; simpl; [by exists []|].
  destruct (p y); [|by exists []]. exists (y :: pre). simpl. by f_equal.
Qed.

Lemma dropWhile_spaces {A} (p : A -> bool) (l : list A) :
  Forall (fun x => p x = true) l -> dropWhile p l = [].
Proof. induction 1 as [|y l Hy _ IH]; simpl; [done|]. by rewrite Hy. Qed.

Lemma trim_idempotent (s : jstring) : trim (trim s) = trim s.
Proof.
  unfold trim. set (a := dropWhile isWhiteSpace s).
  set (u := dropWhile isWhiteSpace (reverse a)).
  assert (Hu : dropWhile isWhiteSpace u = u).
  { apply dropWhile_id. intros x. apply dropWhile_head. }
  assert (Ht : dropWhile isWhiteSpace (reverse u) = reverse u).
  { apply dropWhile_id. intros x Hx. rewrite head_reverse in Hx.
    destruct (dropWhile_suffix isWhiteSpace (reverse a)) as [pre Hpre].
    fold u in Hpre. apply (dropWhile_head isWhiteSpace s). fold a.
    by rewrite <- last_reverse, Hpre, last_app, Hx. }
  by rewrite Ht, reverse_involutive, Hu.
Qed.

Lemma trim_subset (s : jstring) (c : N) : c ∈ trim s -> c ∈ s.
Proof.
  unfold trim. rewrite elem_of_reverse. intros Hc.
  destruct (dropWhile_suffix isWhiteSpace
              (reverse (dropWhile isWhiteSpace s))) as [pre Hpre].
  assert (Hr : c ∈ reverse (dropWhile isWhiteSpace s)).
  { rewrite Hpre. apply elem_of_app. by right. }
  rewrite elem_of_reverse in Hr.
  destruct (dropWhile_suffix isWhiteSpace s) as [pre' Hpre'].
  rewrite Hpre'. apply elem_of_app. by right.
Qed.

Lemma trim_spaces (s : jstring) :
  Forall (fun c => isWhiteSpace c = true) s -> trim s = [].
Proof. intros Hs. unfold trim. by rewrite (dropWhile_spaces _ s Hs). Qed.

Lemma splitOn_pieces (P : N -> Prop) (sep : N) (s : jstring) :
  Forall P s -> Forall (Forall (fun c => P c /\ c <> sep)) (splitOn sep s).
Proof.
  induction 1 as [|c s Hc _ IH]; simpl; [by repeat constructor|].
  destruct (c =? sep)%N eqn:E.
  - constructor; [constructor|done].
  - apply N.eqb_neq in E.
    destruct (splitOn sep s) as [|piece pieces];
      [by repeat constructor|].
    apply Forall_cons in IH as [Hp Hps].
    constructor; [|done]. by constructor.
Qed.

Lemma splitOn_whole (sep : N) (s : jstring) :
  sep ∉ s -> splitOn sep s = [s].
Proof.
  induction s as [|c s IH]; intros Hs; [done|].
  apply not_elem_of_cons in Hs as [Hne Hs]. simpl.
  rewrite (proj2 (N.eqb_neq c sep)) by done. by rewrite IH.
Qed.

Lemma splitOn_first (sep : N) (a b : jstring) :
  sep ∉ a -> splitOn sep (a ++ sep :: b) = a :: splitOn sep b.
Proof.
  induction a as [|c a IH]; intros Ha; simpl.
  - by rewrite N.eqb_refl.
  - apply not_elem_of_cons in Ha as [Hne Ha].
    rewrite (proj2 (N.eqb_neq c sep)) by done. by rewrite IH.
Qed.

Lemma splitOn_join (rest : list jstring) : forall s,
  Forall (fun p => 44%N ∉ p) (s :: rest) ->
  splitOn 44 (joinComma (s :: rest)) = s :: rest.
Proof.
  induction rest as [|t rest IH]; intros s Hl;
    apply Forall_cons in Hl as [Hs Hrest]; simpl.
  - rewrite app_nil_r. by apply splitOn_whole.
  - rewrite splitOn_first by done. f_equal. by apply (IH t).
Qed.

Lemma cleanOrigins_kept (l : list jstring) :
  Forall cleanOrigin l ->
  filter (fun entry => entry <> []) (trim <$> l) = l.
Proof.
  induction 1 as [|x l (Hne & Ht & _) _ IH]; [done|].
  rewrite fmap_cons, Ht, filter_cons_True by done. by rewrite IH.
Qed.

Lemma parsed_origins_clean (s : jstring) :
  Forall cleanOrigin
    (filter (fun entry => entry <> []) (trim <$> splitOn 44 s)).
Proof.
  apply Forall_forall. intros entry Hin.
  apply list_elem_of_filter in Hin as [Hne Hin].
  apply list_elem_of_fmap in Hin as (piece & -> & Hpiece).
  split; [done|]. split; [apply trim_idempotent|].
  intros Hc. apply trim_subset in Hc.
  assert (Hs : Forall (fun _ : N => True) s) by (by apply Forall_true).
  pose proof (splitOn_pieces _ 44 s Hs) as Hp.
  rewrite Forall_forall in Hp. specialize (Hp piece Hpiece).
  rewrite Forall_forall in Hp. by destruct (Hp _ Hc) as [_ Hsep].
Qed.

(** X18.  Whatever the environment variable holds, the allow list
    [parseAllowedOrigins] returns has only entries that are not empty, carry
    no white space at either end and hold no comma; it is the default list
    when the variable is not set or is the empty string. *)
Theorem allowed_origins_clean (e : option jstring) :
  exists l, parseAllowedOrigins (envValue e) = Ok l
    /\ Forall cleanOrigin l
    /\ (e = None \/ e = Some [] -> l = DEFAULT_ALLOWED_ORIGINS).
Proof.
  assert (Hd : Forall cleanOrigin DEFAULT_ALLOWED_ORIGINS).
  { repeat constructor; try discriminate; try (vm_compute; reflexivity);
      apply (bool_decide_unpack _); vm_compute; exact I. }
  destruct e as [[|c s]|]; simpl.
  - exists DEFAULT_ALLOWED_ORIGINS. by repeat split.
  - eexists. split; [done|]. split; [apply parsed_origins_clean|].
    by intros [|].
  - exists DEFAULT_ALLOWED_ORIGINS. by repeat split.
Qed.

(** X19.  Joining and parsing are inverse on clean lists: a list that is
    not empty and has only clean entries is what [parseAllowedOrigins]
    returns for its entries joined by commas, in the same order. *)
Theorem allowed_origins_round_trip (l : list jstring) :
  l <> [] ->
  Forall cleanOrigin l ->
  parseAllowedOrigins (VStr (joinComma l)) = Ok l.
Proof.
  intros Hne Hl. destruct l as [|s rest]; [done|].
  pose proof Hl as Hl'. apply Forall_cons in Hl' as [(Hs & _ & _) _].
  unfold parseAllowedOrigins.
  assert (Hf : falsy (VStr (joinComma (s :: rest))) = false).
  { simpl. by destruct s. }
  rewrite Hf, splitOn_join.
  - by rewrite cleanOrigins_kept.
  - eapply Forall_impl; [exact Hl|]. by intros x (_ & _ & Hx).
Qed.

(** X20.  A variable that is set to nothing but commas and white space
    gives the empty allow list, not the default one, and then the origin
    check answers 403 to every request that names an origin. *)
Theorem blank_allow_list_blocks (s : jstring) :
  s <> [] ->
  Forall (fun c => c = 44%N \/ isWhiteSpace c = true) s ->
  parseAllowedOrigins (VStr s) = Ok []
  /\ forall origin method, origin <> [] ->
       corsMiddleware [] (Some origin) method = ([], Respond 403).
Proof.
  intros Hne Hs. split.
  - unfold parseAllowedOrigins.
    assert (Hf : falsy (VStr s) = false) by (by destruct s).
    rewrite Hf. f_equal.
    pose proof (splitOn_pieces _ 44 s Hs) as Hp.
    induction Hp as [|piece pieces Hpiece _ IH]; [done|].
    rewrite fmap_cons, trim_spaces, filter_cons_False; [done|by intros []|].
    eapply Forall_impl; [exact Hpiece|]. by intros c [[->|Hc] Hc'].
  - intros origin method Ho. unfold corsMiddleware.
    assert (Hf : falsy (VStr origin) = false) by (by destruct origin).
    rewrite Hf. rewrite bool_decide_eq_false_2; [done|].
    apply not_elem_of_nil.
Qed.

(** X21.  The origin check answers 403 exactly to a request that names an
    origin the allow list has not, and then sets no header, whatever the
    method; [Access-Control-Allow-Origin] is only ever the request's own
    origin, and only one the allow list has; every other request goes on,
    or gets 204 when its method is OPTIONS. *)
Theorem cors_gate (allowedOrigins : list jstring) (origin : option jstring)
    (method : jstring) :
  let blocked :=
    exists o, origin = Some o /\ o <> [] /\ o ∉ allowedOrigins in
  let (headers, out) := corsMiddleware allowedOrigins origin method in
  (out = Respond 403 <-> blocked)
  /\ (out = Respond 403 -> headers = [])
  /\ (forall v, ("Access-Control-Allow-Origin"%string, v) ∈ headers ->
        origin = Some v /\ v ∈ allowedOrigins)
  /\ (out = Respond 204 <-> method = js "OPTIONS" /\ ~ blocked)
  /\ (out = Next <-> method <> js "OPTIONS" /\ ~ blocked).
Proof.
  intros blocked. unfold corsMiddleware.
  assert (Hsets : forall v hs,
            ("Access-Control-Allow-Origin"%string, v)
              ∈ hs ++ [ ("Access-Control-Allow-Headers"%string, js "Content-Type");
                        ("Access-Control-Allow-Methods"%string,
                         js "GET,POST,PATCH,DELETE,OPTIONS") ] ->
            ("Access-Control-Allow-Origin"%string, v) ∈ hs).
  { intros v hs Hin. apply elem_of_app in Hin as [Hin|Hin]; [done|].
    repeat (apply elem_of_cons in Hin as [Hin|Hin]; [done|]).
    by apply elem_of_nil in Hin. }
  assert (Hopt : forall hs : list (string * jstring),
            let (headers, out) :=
              (if jstr_eqb method (js "OPTIONS")
               then (hs, Respond 204) else (hs, Next)) in
            headers = hs
            /\ out <> Respond 403
            /\ (out = Respond 204 <-> method = js "OPTIONS")
            /\ (out = Next <-> method <> js "OPTIONS")).
  { intros hs. destruct (jstr_eqb method (js "OPTIONS")) eqn:E.
    - apply jstr_eqb_eq in E. by repeat split.
    - assert (method <> js "OPTIONS").
      { intros ->. by rewrite jstr_eqb_refl in E. }
      by repeat split. }
  destruct origin as [o|].
  - destruct o as [|c o]; cbn [falsy].
    + match goal with |- context [if jstr_eqb _ _ then (?hs, _) else _] =>
        specialize (Hopt hs) end.
      destruct (if jstr_eqb _ _ then _ else _) as [headers out].
      destruct Hopt as (-> & H403 & H204 & Hnext).
      assert (Hnb : ~ blocked) by (by intros (o' & [= <-] & Hne & _)).
      split; [by split|]. split; [done|].
      split; [intros v Hv; apply Hsets in Hv; by apply elem_of_nil in Hv|].
      rewrite H204, Hnext. split; split; try tauto; by intros [??].
    + destruct (bool_decide (c :: o ∈ allowedOrigins)) eqn:Ein; cbn [negb].
      * apply bool_decide_eq_true in Ein.
        match goal with |- context [if jstr_eqb _ _ then (?hs, _) else _] =>
          specialize (Hopt hs) end.
        destruct (if jstr_eqb _ _ then _ else _) as [headers out].
        destruct Hopt as (-> & H403 & H204 & Hnext).
        assert (Hnb : ~ blocked) by (by intros (o' & [= <-] & _ & Hno)).
        split; [by split|]. split; [done|].
        split.
        { intros v Hv. apply Hsets in Hv.
          apply elem_of_cons in Hv as [[= ->]|Hv]; [done|].
          apply elem_of_cons in Hv as [Hv|Hv]; [done|].
          by apply elem_of_nil in Hv. }
        rewrite H204, Hnext. split; split; try tauto; by intros [??].
      * apply bool_decide_eq_false in Ein.
        assert (Hb : blocked) by (exists (c :: o); by repeat split).
        split; [by split|]. split; [done|].
        split; [intros v Hv; by apply elem_of_nil in Hv|].
        split; split; try done; by intros [_ Hnb].
  - match goal with |- context [if jstr_eqb _ _ then (?hs, _) else _] =>
      specialize (Hopt hs) end.
    destruct (if jstr_eqb _ _ then _ else _) as [headers out].
    destruct Hopt as (-> & H403 & H204 & Hnext).
    assert (Hnb : ~ blocked) by (by intros (o' & [=] & _)).
    split; [by split|]. split; [done|].
    split; [intros v Hv; apply Hsets in Hv; by apply elem_of_nil in Hv|].
    rewrite H204, Hnext. split; split; try tauto; by intros [??].
Qed.

End Origins.

(** ** The seed file *)

Section SeedsMore.
Variable h : Host.

Lemma normalizeSeeds_Ok clock uuids (entries : list value) :
  forall i seeds,
  normalizeSeeds h clock uuids i entries = Ok seeds <->
  length seeds = length entries
  /\ forall j entry, entries !! j = Some entry ->
       exists now r,
         seedNow h entry (clock (i + j)%nat) = Ok now
         /\ normalizeItem h entry now (uuids (i + j)%nat) = Ok r
         /\ seeds !! j = Some r.
Proof.
  induction entries as [|entry entries IH]; intros i seeds; cbn [normalizeSeeds].
  - split.
    + intros [= <-]. by split.
    + intros [Hlen _]. by destruct seeds.
  - split.
    + intros H.
      destruct (seedNow h entry (clock i)) as [now|] eqn:En;
        cbn [bindR] in H; [|done].
      destruct (normalizeItem h entry now (uuids i)) as [r|] eqn:Er;
        cbn [bindR] in H; [|done].
      destruct (normalizeSeeds h clock uuids (S i) entries) as [rs|] eqn:Ers;
        cbn [bindR] in H; [|done].
      injection H as <-. apply IH in Ers as [Hlen Hrs].
      split; [simpl; by rewrite Hlen|].
      intros [|j] entry' Hj; simpl in Hj.
      * injection Hj as <-. rewrite Nat.add_0_r. by exists now, r.
      * destruct (Hrs j entry' Hj) as (now' & r' & ? & ? & ?).
        exists now', r'. by rewrite Nat.add_succ_r.
    + intros [Hlen Hall]. destruct seeds as [|r seeds]; [done|].
      destruct (Hall 0%nat entry eq_refl) as (now & r' & En & Er & [= <-]).
      rewrite Nat.add_0_r in En, Er. rewrite En. cbn [bindR].
      rewrite Er. cbn [bindR].
      assert (Hrs : normalizeSeeds h clock uuids (S i) entries = Ok seeds).
      { apply IH. split; [simpl in Hlen; lia|].
        intros j entry' Hj.
        destruct (Hall (S j) entry' Hj) as (now' & r'' & ? & ? & ?).
        exists now', r''.
        by replace (S i + j)%nat with (i + S j)%nat by lia. }
      by rewrite Hrs.
Qed.

Lemma normalizeSeeds_Ok_load (entries : list value) (clock : nat -> Z)
    (uuids : nat -> jstring) (seeds : list item) :
  loadSeedItems h (Parsed (VArr entries)) clock uuids = inr seeds <->
  length seeds = length entries
  /\ forall i entry, entries !! i = Some entry ->
       exists now r,
         seedNow h entry (clock i) = Ok now
         /\ normalizeItem h entry now (uuids i) = Ok r
         /\ seeds !! i = Some r.
Proof.
  rewrite <- (normalizeSeeds_Ok clock uuids entries 0 seeds).
  unfold loadSeedItems.
  destruct (normalizeSeeds h clock uuids 0 entries) as [rs|e].
  - split; congruence.
  - split; [done|congruence].
Qed.

(** X22.  A seed file that holds an array loads all of it or nothing:
    [loadSeedItems] returns a list exactly when every entry normalises, and
    the list then has one record for each entry, in the order of the file,
    each normalised at its own clock and with its own fresh id; a single
    entry that fails makes the load raise. *)
Theorem seeds_all_or_nothing (entries : list value) (clock : nat -> Z)
    (uuids : nat -> jstring) (seeds : list item) :
  loadSeedItems h (Parsed (VArr entries)) clock uuids = inr seeds <->
  length seeds = length entries
  /\ forall i entry, entries !! i = Some entry ->
       exists now r,
         seedNow h entry (clock i) = Ok now
         /\ normalizeItem h entry now (uuids i) = Ok r
         /\ seeds !! i = Some r.
Proof. apply normalizeSeeds_Ok_load. Qed.

(** X23.  A seed takes its time stamp from its own [createdAt]: when the
    load succeeds, a seed entry whose [createdAt] is a string has a
    [createdAt] that [Date.parse] reads, its record keeps that string and
    its [updatedAt] is the same instant printed by [toISOString]; so one
    entry with a [createdAt] that does not parse makes the whole load
    raise. *)
Theorem seed_stamped_by_createdAt (entries : list value) (clock : nat -> Z)
    (uuids : nat -> jstring) (i : nat) (entry : value) (s : jstring) :
  entries !! i = Some entry ->
  field "createdAt" entry = VStr s ->
  match loadSeedItems h (Parsed (VArr entries)) clock uuids with
  | inr seeds =>
      exists t r,
        dateParse h s = Some t
        /\ seeds !! i = Some r
        /\ Item.createdAt r = PStr s
        /\ Item.updatedAt r = toISOString h t
  | inl e => True
  end
  /\ (dateParse h s = None ->
      exists e, loadSeedItems h (Parsed (VArr entries)) clock uuids
                = inl (Raised e)).
Proof.
  intros Hi Hc.
  assert (Hok : forall seeds,
            loadSeedItems h (Parsed (VArr entries)) clock uuids = inr seeds ->
            exists t r,
              dateParse h s = Some t /\ seeds !! i = Some r
              /\ Item.createdAt r = PStr s
              /\ Item.updatedAt r = toISOString h t).
  { intros seeds Hload.
    apply normalizeSeeds_Ok_load in Hload as [_ Hall].
    destruct (Hall i entry Hi) as (now & r & Hnow & Hr & Hs).
    assert (Enow : now = dateParse h s).
    { unfold seedNow in Hnow. rewrite Hc in Hnow.
      destruct entry; try discriminate Hc; cbn in Hnow; congruence. }
    subst now.
    destruct (normalizeItem_Ok h _ _ _ _ Hr)
      as (fs & expiry & q & sod
          & _ & _ & _ & _ & _ & _ & _ & _ & _ & _ & _ & _ & Hu & Hcr).
    destruct (dateParse h s) as [t|]; [|discriminate Hu].
    exists t, r. split; [done|]. split; [done|].
    rewrite Hc in Hcr. split; [done|]. cbn [dateToISO] in Hu. congruence. }
  split.
  - destruct (loadSeedItems _ _ _ _) as [e|seeds] eqn:E; [done|].
    by apply Hok.
  - intros Hbad. unfold loadSeedItems in *.
    destruct (normalizeSeeds h clock uuids 0 entries) as [seeds|e];
      [|by eexists].
    destruct (Hok seeds eq_refl) as (t & _ & Ht & _). congruence.
Qed.

End SeedsMore.

(** ** The stored record *)

Section StoredRecord.
Variable h : Host.

(** X24.  The strings of an accepted record keep to their caps where the
    cap is applied last: the name has between 1 and 80 code units and the
    notes at most 240; the category is the lower case of a string of at most
    40 code units, hence of at most 40 itself on a host whose lower case
    never lengthens a string; the expiry date is a date printed by
    [toISOString]. *)
Theorem stored_strings_capped input now uuid r :
  normalizeItem h input now uuid = Ok r ->
  1 <= length (Item.name r) <= 80
  /\ length (Item.notes r) <= 240
  /\ (exists limited, length limited <= 40
        /\ Item.category r = toLowerCase h limited)
  /\ ((forall s, length (toLowerCase h s) <= length s) ->
      length (Item.category r) <= 40)
  /\ exists t, Item.expiresOn r = toISOString h t.
Proof.
  intros H.
  destruct (stored_lengths h _ _ _ _ H) as (Hn & Ho & limited & Hl & Hc).
  destruct (stored_expiry_printed h _ _ _ _ H) as (t & Ht & _).
  destruct (normalizeItem_Ok h _ _ _ _ H)
    as (fs & expiry & q & sod & _ & _ & _ & _ & Hne & _).
  split.
  { split; [|done]. destruct (Item.name r); [done|simpl; lia]. }
  split; [done|]. split; [by exists limited|].
  split; [|by exists t].
  intros Hlow. rewrite Hc. etrans; [apply Hlow|done].
Qed.

(** X25.  Normalisation is idempotent on the records it leaves alone: a
    stored record whose name and notes are trimmed, whose category is its
    own trimmed, cut and lower-cased form, and whose expiry date reads back
    as the local midnight it was printed from, normalises to itself with
    the new [updatedAt] and no other change. *)
Theorem normalization_fixed_point input now uuid r now' uuid' t stamp :
  normalizeItem h input now uuid = Ok r ->
  trim (Item.name r) = Item.name r ->
  toLowerCase h (slice0 40 (trim (Item.category r))) = Item.category r ->
  trim (Item.notes r) = Item.notes r ->
  dateParse h (Item.expiresOn r) = Some t ->
  localMidnight h t = Some t ->
  toISOString h t = Item.expiresOn r ->
  dateToISO h now' = Ok stamp ->
  normalizeItem h (VObj (itemToObj r)) now' uuid'
  = Ok {| Item.id := Item.id r;
          Item.name := Item.name r;
          Item.category := Item.category r;
          Item.quantity := Item.quantity r;
          Item.expiresOn := Item.expiresOn r;
          Item.notes := Item.notes r;
          Item.createdAt := Item.createdAt r;
          Item.updatedAt := stamp |}.
Proof. apply renormalize_stable. Qed.

End StoredRecord.

(** ** The two guards together *)

(** X26.  The limiter counts a request before its origin is checked: within
    the window of its address, a request from an origin the allow list has
    not is answered 403 and still uses up one request of the allowance, and
    once the allowance is used up it is answered 429, not 403. *)
Theorem refused_origin_is_counted (windowMs maxRequests : Z)
    (allowedOrigins : list jstring) (ip : jstring) (nowMs : Z)
    (origin method : jstring) (buckets : gmap jstring bucket) (start n : Z) :
  buckets !! ip = Some {| windowStartMs := start; count := n |} ->
  (nowMs - start < windowMs)%Z ->
  origin <> [] ->
  origin ∉ allowedOrigins ->
  guards windowMs maxRequests allowedOrigins ip nowMs (Some origin) method
    buckets
  = if bool_decide (n < maxRequests)%Z
    then (Some 403%nat,
          <[ip := {| windowStartMs := start; count := n + 1 |}]> buckets)
    else (Some 429%nat, buckets).
Proof.
  intros Hb Hw Ho Hno. unfold guards, rateLimitMiddleware, limiter.
  rewrite Hb. cbn [windowStartMs count].
  rewrite (bool_decide_eq_false_2 (nowMs - start >= windowMs)%Z) by lia.
  destruct (decide (n < maxRequests)%Z) as [Hn|Hn].
  - rewrite (bool_decide_eq_false_2 (n >= maxRequests)%Z) by lia.
    rewrite (bool_decide_eq_true_2 (n < maxRequests)%Z) by done.
    cbn [allowed negb]. unfold corsMiddleware. cbv beta iota zeta.
    assert (Hf : falsy (VStr origin) = false) by (by destruct origin).
    rewrite Hf. by rewrite bool_decide_eq_false_2.
  - rewrite (bool_decide_eq_true_2 (n >= maxRequests)%Z) by lia.
    by rewrite (bool_decide_eq_false_2 (n < maxRequests)%Z).
Qed.

(** * The further properties at the sample inputs *)

(** X1 on [springHost]: from noon of 30 March 2024 to 2 April the clocks
    move forward once, the local midnights lie three days less an hour
    apart, and the days left are 3. *)
Lemma daysUntil_absorbs_shift_witness :
  startOfDay springHost (OfDate springNow) = Ok (Some 1711753200000%Z)
  /\ startOfDay springHost (OfValue (VStr (js "2024-04-02")))
     = Ok (Some 1712008800000%Z)
  /\ (1712008800000 - 1711753200000 = 3 * MS_PER_DAY + - 3600000)%Z
  /\ (- (MS_PER_DAY / 2) <= - 3600000 < MS_PER_DAY / 2)%Z
  /\ daysUntil springHost (OfValue (VStr (js "2024-04-02"))) springNow
     = Ok (ofZ 3).
Proof.
  assert (H1 : startOfDay springHost (OfDate springNow)
               = Ok (Some 1711753200000%Z)) by (vm_compute; reflexivity).
  assert (H2 : startOfDay springHost (OfValue (VStr (js "2024-04-02")))
               = Ok (Some 1712008800000%Z)) by (vm_compute; reflexivity).
  assert (H3 : (1712008800000 - 1711753200000
                = 3 * MS_PER_DAY + - 3600000)%Z) by (vm_compute; reflexivity).
  assert (H4 : (- (MS_PER_DAY / 2) <= - 3600000 < MS_PER_DAY / 2)%Z)
    by (by vm_compute).
  split; [exact H1|]. split; [exact H2|]. split; [exact H3|].
  split; [exact H4|].
  exact (daysUntil_absorbs_shift springHost (OfValue (VStr (js "2024-04-02")))
           springNow 1712008800000 1711753200000 3 (- 3600000) H1 H2 H3 H4).
Defined.

(** X2 at the expiry date ["2023-11-18"], [sampleNow] and a day later. *)
Lemma status_never_recovers_witness :
  startOfDay utcHost (OfValue (VStr (js "2023-11-18")))
  = Ok (Some 1700265600000%Z)
  /\ startOfDay utcHost (OfDate sampleNow) = Ok (Some 1699920000000%Z)
  /\ startOfDay utcHost (OfDate laterNow) = Ok (Some 1700006400000%Z)
  /\ (1699920000000 <= 1700006400000)%Z
  /\ exists k k' : Z,
       daysUntil utcHost (OfValue (VStr (js "2023-11-18"))) sampleNow
       = Ok (ofZ k)
       /\ daysUntil utcHost (OfValue (VStr (js "2023-11-18"))) laterNow
          = Ok (ofZ k')
       /\ (k' <= k)%Z
       /\ (itemStatus utcHost (OfValue (VStr (js "2023-11-18"))) sampleNow
           = Ok (js "expired") ->
           itemStatus utcHost (OfValue (VStr (js "2023-11-18"))) laterNow
           = Ok (js "expired"))
       /\ (itemStatus utcHost (OfValue (VStr (js "2023-11-18"))) laterNow
           = Ok (js "fresh") ->
           itemStatus utcHost (OfValue (VStr (js "2023-11-18"))) sampleNow
           = Ok (js "fresh")).
Proof.
  assert (H1 : startOfDay utcHost (OfValue (VStr (js "2023-11-18")))
               = Ok (Some 1700265600000%Z)) by (vm_compute; reflexivity).
  assert (H2 : startOfDay utcHost (OfDate sampleNow)
               = Ok (Some 1699920000000%Z)) by (vm_compute; reflexivity).
  assert (H3 : startOfDay utcHost (OfDate laterNow)
               = Ok (Some 1700006400000%Z)) by (vm_compute; reflexivity).
  assert (H4 : (1699920000000 <= 1700006400000)%Z) by lia.
  split; [exact H1|]. split; [exact H2|]. split; [exact H3|].
  split; [exact H4|].
  exact (status_never_recovers utcHost (OfValue (VStr (js "2023-11-18")))
           sampleNow laterNow 1700265600000 1699920000000 1700006400000
           H1 H2 H3 H4).
Defined.

(** X3 at the yogurt, four days before it expires. *)
Lemma api_status_follows_days_witness :
  toApiItem utcHost yogurtRecord sampleNow = Ok yogurtApi
  /\ ApiItem.base yogurtApi = yogurtRecord
  /\ ApiItem.status yogurtApi
     = (if numLt (ApiItem.daysLeft yogurtApi) (ofZ 0) then js "expired"
        else if numLe (ApiItem.daysLeft yogurtApi) (ofZ 7) then js "expiring"
        else js "fresh")
  /\ (dateParse utcHost (Item.expiresOn yogurtRecord) = None
      \/ sampleNow = None ->
      ApiItem.daysLeft yogurtApi = NaN
      /\ ApiItem.status yogurtApi = js "fresh").
Proof.
  assert (H1 : toApiItem utcHost yogurtRecord sampleNow = Ok yogurtApi)
    by (vm_compute; reflexivity).
  split; [exact H1|].
  exact (api_status_follows_days utcHost yogurtRecord sampleNow yogurtApi H1).
Defined.

(** X4 at [milkInput] with an [updatedAt] of its own. *)
Lemma unknown_properties_ignored_witness :
  (js "updatedAt" ∉ (js <$> itemFields))
  /\ normalizeItem utcHost
       (VObj (setProp (js "updatedAt") (VStr (js "1999-01-01T00:00:00.000Z"))
                [ (js "id", VStr (js "milk-1"));
                  (js "name", VStr (js "Milk"));
                  (js "expiresOn", VStr (js "2030-01-01")) ]))
       sampleNow sampleUuid
     = normalizeItem utcHost
         (VObj [ (js "id", VStr (js "milk-1"));
                 (js "name", VStr (js "Milk"));
                 (js "expiresOn", VStr (js "2030-01-01")) ])
         sampleNow sampleUuid.
Proof.
  assert (H1 : js "updatedAt" ∉ (js <$> itemFields)).
  { apply (bool_decide_unpack _). vm_compute. exact I. }
  split; [exact H1|].
  exact (unknown_properties_ignored utcHost (js "updatedAt")
           (VStr (js "1999-01-01T00:00:00.000Z"))
           [ (js "id", VStr (js "milk-1"));
             (js "name", VStr (js "Milk"));
             (js "expiresOn", VStr (js "2030-01-01")) ]
           sampleNow sampleUuid H1).
Defined.

(** X5 at [PATCH { quantity: 3 }] on [milkRecord]. *)
Lemma patch_overrides_named_fields_witness :
  NoDup [ (js "quantity", VNum (ofZ 3)) ].*1
  /\ field "quantity"
       (mergedInput milkRecord (VObj [ (js "quantity", VNum (ofZ 3)) ])
          (VStr (js "milk-1")))
     = if bool_decide ("quantity"%string = "id"%string)
       then VStr (js "milk-1")
       else if bool_decide ("quantity"%string = "createdAt"%string)
            then toValue (Item.createdAt milkRecord)
       else if hasProp (js "quantity") [ (js "quantity", VNum (ofZ 3)) ]
            then getProp (js "quantity") [ (js "quantity", VNum (ofZ 3)) ]
       else field "quantity" (VObj (itemToObj milkRecord)).
Proof.
  assert (H1 : NoDup [ (js "quantity", VNum (ofZ 3)) ].*1).
  { apply (bool_decide_unpack _). vm_compute. exact I. }
  split; [exact H1|].
  exact (patch_overrides_named_fields milkRecord
           [ (js "quantity", VNum (ofZ 3)) ] (VStr (js "milk-1"))
           "quantity" H1).
Defined.

(** X6 at the body [[1]] on [milkStore]. *)
Lemma non_object_patch_is_empty_witness :
  (forall fs, arrayPatch <> VObj fs)
  /\ update utcHost (VStr (js "milk-1")) arrayPatch laterNow otherUuid
       milkStore
     = update utcHost (VStr (js "milk-1")) (VObj []) laterNow otherUuid
         milkStore
  /\ create utcHost arrayPatch laterNow otherUuid milkStore
     = (Err PayloadNotObject, milkStore).
Proof.
  assert (H1 : forall fs, arrayPatch <> VObj fs) by (intros fs; discriminate).
  split; [exact H1|].
  exact (non_object_patch_is_empty utcHost (VStr (js "milk-1")) arrayPatch
           laterNow otherUuid milkStore H1).
Defined.

(** X8 on [doubledStore]: of the two records with the id ["milk-1"] the
    first goes, the second stays. *)
Lemma remove_first_match_witness :
  Item.id milkRecord = PStr (js "milk-1")
  /\ Forall (fun x => Item.id x <> PStr (js "milk-1")) [yogurtRecord]
  /\ remove (VStr (js "milk-1"))
       {| items := [yogurtRecord] ++ milkRecord :: [milkRecord3];
          file := None |}
     = (true, {| items := [yogurtRecord] ++ [milkRecord3];
                 file := Some ([yogurtRecord] ++ [milkRecord3]) |}).
Proof.
  assert (H1 : Item.id milkRecord = PStr (js "milk-1")) by reflexivity.
  assert (H2 : Forall (fun x => Item.id x <> PStr (js "milk-1"))
                 [yogurtRecord]).
  { repeat constructor. intros E. vm_compute in E. discriminate E. }
  split; [exact H1|]. split; [exact H2|].
  exact (remove_first_match (js "milk-1") [yogurtRecord] [milkRecord3]
           milkRecord None H1 H2).
Defined.

(** X9 on [pantry], removing the milk. *)
Lemma removed_id_is_gone_witness :
  uniqueIds pantry
  /\ remove (VStr (js "milk-1")) pantry
     = (true, {| items := [yogurtRecord]; file := Some [yogurtRecord] |})
  /\ remove (VStr (js "milk-1"))
       {| items := [yogurtRecord]; file := Some [yogurtRecord] |}
     = (false, {| items := [yogurtRecord]; file := Some [yogurtRecord] |})
  /\ update utcHost (VStr (js "milk-1")) quantityPatch laterNow otherUuid
       {| items := [yogurtRecord]; file := Some [yogurtRecord] |}
     = (Ok None, {| items := [yogurtRecord]; file := Some [yogurtRecord] |})
  /\ uniqueIds {| items := [yogurtRecord]; file := Some [yogurtRecord] |}
  /\ S (length (items {| items := [yogurtRecord];
                         file := Some [yogurtRecord] |}))
     = length (items pantry).
Proof.
  assert (H1 : uniqueIds pantry).
  { unfold uniqueIds. simpl. repeat constructor.
    - intros Hin. apply list_elem_of_singleton in Hin.
      vm_compute in Hin. discriminate Hin.
    - intros Hin. inversion Hin. }
  assert (H2 : remove (VStr (js "milk-1")) pantry
               = (true, {| items := [yogurtRecord];
                           file := Some [yogurtRecord] |}))
    by (vm_compute; reflexivity).
  split; [exact H1|]. split; [exact H2|].
  exact (removed_id_is_gone utcHost (VStr (js "milk-1")) quantityPatch
           laterNow otherUuid pantry
           {| items := [yogurtRecord]; file := Some [yogurtRecord] |}
           H1 H2).
Defined.


(** X12 on [numberedStore]: the path ["7"] does not reach the record whose
    id is the number 7. *)
Lemma unknown_id_not_found_witness :
  Forall (fun it => Item.id it <> PStr (js "7")) (items numberedStore)
  /\ patchItem utcHost (js "7") quantityPatch laterNow laterNow otherUuid
       numberedStore
     = (NotFound, numberedStore)
  /\ deleteItem (js "7") numberedStore = (NotFound, numberedStore).
Proof.
  assert (H1 : Forall (fun it => Item.id it <> PStr (js "7"))
                 (items numberedStore)).
  { repeat constructor. intros E. discriminate E. }
  split; [exact H1|].
  exact (unknown_id_not_found utcHost (js "7") quantityPatch laterNow laterNow
           otherUuid numberedStore H1).
Defined.

(** X13 on the empty store: POST of [milkInput], then DELETE of
    ["milk-1"]. *)
Lemma post_then_delete_witness :
  postItem utcHost milkInput sampleNow sampleNow sampleUuid emptyStore
  = (ItemReply 201 milkApi, milkStore)
  /\ Item.id (ApiItem.base milkApi) = PStr (js "milk-1")
  /\ Forall (fun it => Item.id it <> PStr (js "milk-1")) (items emptyStore)
  /\ 201%nat = 201%nat
  /\ deleteItem (js "milk-1") milkStore
     = (NoContent, {| items := items emptyStore;
                      file := Some (items emptyStore) |}).
Proof.
  assert (H1 : postItem utcHost milkInput sampleNow sampleNow sampleUuid
                 emptyStore
               = (ItemReply 201 milkApi, milkStore))
    by (vm_compute; reflexivity).
  assert (H2 : Item.id (ApiItem.base milkApi) = PStr (js "milk-1"))
    by reflexivity.
  assert (H3 : Forall (fun it => Item.id it <> PStr (js "milk-1"))
                 (items emptyStore)) by constructor.
  split; [exact H1|]. split; [exact H2|]. split; [exact H3|].
  exact (post_then_delete utcHost (js "milk-1") milkInput sampleNow sampleNow
           sampleUuid emptyStore milkStore 201 milkApi H1 H2 H3).
Defined.

(** X14 with a limit of two, at the second request of [homeIp]. *)
Lemma remaining_within_limit_witness :
  (1 <= 2)%Z
  /\ countsWithin 2 oneRequest
  /\ let (v, buckets') := limiter 60000 2 homeIp 3000 oneRequest in
     countsWithin 2 buckets'
     /\ (0 <= remaining v <= 2 - 1)%Z
     /\ (allowed v = false -> remaining v = 0%Z /\ buckets' = oneRequest)
     /\ exists current, buckets' !! homeIp = Some current
          /\ (allowed v = true -> remaining v = (2 - count current)%Z).
Proof.
  assert (H1 : (1 <= 2)%Z) by lia.
  assert (H2 : countsWithin 2 oneRequest).
  { apply map_Forall_singleton. simpl. lia. }
  split; [exact H1|]. split; [exact H2|].
  exact (remaining_within_limit 60000 2 homeIp 3000 oneRequest H1 H2).
Defined.

(** X15 with a limit of two: three requests of two addresses. *)
Lemma buckets_only_grow_witness :
  (1 <= 2)%Z
  /\ countsWithin 2 ∅
  /\ serve 60000 2 [(homeIp, 1000%Z); (officeIp, 2000%Z); (homeIp, 3000%Z)] ∅
     = ([None; None; None], bucketsAfter)
  /\ dom bucketsAfter
     = dom (∅ : gmap jstring bucket)
       ∪ list_to_set
           [(homeIp, 1000%Z); (officeIp, 2000%Z); (homeIp, 3000%Z)].*1
  /\ countsWithin 2 bucketsAfter
  /\ length [None; None; None : option nat]
     = length [(homeIp, 1000%Z); (officeIp, 2000%Z); (homeIp, 3000%Z)]
  /\ Forall (fun s => s = None \/ s = Some 429%nat) [None; None; None].
Proof.
  assert (H1 : (1 <= 2)%Z) by lia.
  assert (H2 : countsWithin 2 ∅) by apply map_Forall_empty.
  assert (H3 : serve 60000 2
                 [(homeIp, 1000%Z); (officeIp, 2000%Z); (homeIp, 3000%Z)] ∅
               = ([None; None; None], bucketsAfter))
    by (vm_compute; reflexivity).
  split; [exact H1|]. split; [exact H2|]. split; [exact H3|].
  exact (buckets_only_grow 60000 2
           [(homeIp, 1000%Z); (officeIp, 2000%Z); (homeIp, 3000%Z)]
           ∅ [None; None; None] bucketsAfter H1 H2 H3).
Defined.

(** X16 at a variable set to ["abc"] and the fallback 180. *)
Lemma parsePositiveInt_positive_witness :
  (0 < 180)%Z
  /\ (exists k : Z,
        parsePositiveInt utcHost (envValue (Some (js "abc"))) (ofZ 180)
        = Ok (ofZ k)
        /\ (0 < k)%Z /\ (Some (js "abc") = None -> k = 180%Z))
  /\ (exists w : Z,
        rateLimitWindowMs utcHost (envValue (Some (js "abc"))) = Ok (ofZ w)
        /\ (1 <= w)%Z)
  /\ (exists m : Z,
        rateLimitMax utcHost (envValue (Some (js "abc"))) = Ok (ofZ m)
        /\ (1 <= m)%Z).
Proof.
  assert (H1 : (0 < 180)%Z) by lia.
  split; [exact H1|].
  exact (parsePositiveInt_positive utcHost (Some (js "abc")) 180 H1).
Defined.

(** X17 at ["  180 per minute"]. *)
Lemma parsePositiveInt_reads_prefix_witness :
  Forall (fun c => isWhiteSpace c = true) (js "  ")
  /\ js "180" <> []
  /\ Forall (fun c => isDecimalDigit c = true) (js "180")
  /\ match js " per minute" with
     | c :: _ => isDecimalDigit c = false
     | [] => True
     end
  /\ (decimalValue (js "180") < 2 ^ 53)%Z
  /\ parsePositiveInt utcHost (VStr (js "  " ++ js "180" ++ js " per minute"))
       (ofZ 60)
     = Ok (if bool_decide (0 < decimalValue (js "180"))%Z
           then ofZ (decimalValue (js "180")) else ofZ 60).
Proof.
  assert (H1 : Forall (fun c => isWhiteSpace c = true) (js "  ")).
  { apply (bool_decide_unpack _). vm_compute. exact I. }
  assert (H2 : js "180" <> []) by discriminate.
  assert (H3 : Forall (fun c => isDecimalDigit c = true) (js "180")).
  { apply (bool_decide_unpack _). vm_compute. exact I. }
  assert (H4 : match js " per minute" with
               | c :: _ => isDecimalDigit c = false
               | [] => True
               end) by (vm_compute; reflexivity).
  assert (H5 : (decimalValue (js "180") < 2 ^ 53)%Z)
    by (vm_compute; reflexivity).
  split; [exact H1|]. split; [exact H2|]. split; [exact H3|].
  split; [exact H4|]. split; [exact H5|].
  exact (parsePositiveInt_reads_prefix utcHost (js "  ") (js "180")
           (js " per minute") (ofZ 60) H1 H2 H3 H4 H5).
Defined.

(** X19 at a list of two origins. *)
Lemma allowed_origins_round_trip_witness :
  [shopOrigin; homeOrigin] <> []
  /\ Forall cleanOrigin [shopOrigin; homeOrigin]
  /\ parseAllowedOrigins (VStr (joinComma [shopOrigin; homeOrigin]))
     = Ok [shopOrigin; homeOrigin].
Proof.
  assert (H1 : [shopOrigin; homeOrigin] <> []) by discriminate.
  assert (H2 : Forall cleanOrigin [shopOrigin; homeOrigin]).
  { repeat constructor; try discriminate; try (vm_compute; reflexivity);
      apply (bool_decide_unpack _); vm_compute; exact I. }
  split; [exact H1|]. split; [exact H2|].
  exact (allowed_origins_round_trip [shopOrigin; homeOrigin] H1 H2).
Defined.

(** X20 at a variable set to [" , "]. *)
Lemma blank_allow_list_blocks_witness :
  js " , " <> []
  /\ Forall (fun c => c = 44%N \/ isWhiteSpace c = true) (js " , ")
  /\ parseAllowedOrigins (VStr (js " , ")) = Ok []
  /\ forall origin method, origin <> [] ->
       corsMiddleware [] (Some origin) method = ([], Respond 403).
Proof.
  assert (H1 : js " , " <> []) by discriminate.
  assert (H2 : Forall (fun c => c = 44%N \/ isWhiteSpace c = true) (js " , ")).
  { apply (bool_decide_unpack _). vm_compute. exact I. }
  split; [exact H1|]. split; [exact H2|].
  exact (blank_allow_list_blocks (js " , ") H1 H2).
Defined.

(** X23 at a seed file of one entry. *)
Lemma seed_stamped_by_createdAt_witness :
  [seedEntry] !! 0%nat = Some seedEntry
  /\ field "createdAt" seedEntry = VStr (js "2023-11-14T22:13:20.000Z")
  /\ loadSeedItems utcHost (Parsed (VArr [seedEntry])) (fun _ => 0%Z)
       (fun _ => sampleUuid)
     = inr [seedRecord]
  /\ match loadSeedItems utcHost (Parsed (VArr [seedEntry])) (fun _ => 0%Z)
             (fun _ => sampleUuid) with
     | inr seeds =>
         exists t r,
           dateParse utcHost (js "2023-11-14T22:13:20.000Z") = Some t
           /\ seeds !! 0%nat = Some r
           /\ Item.createdAt r = PStr (js "2023-11-14T22:13:20.000Z")
           /\ Item.updatedAt r = toISOString utcHost t
     | inl e => True
     end
  /\ (dateParse utcHost (js "2023-11-14T22:13:20.000Z") = None ->
      exists e, loadSeedItems utcHost (Parsed (VArr [seedEntry]))
                  (fun _ => 0%Z) (fun _ => sampleUuid)
                = inl (Raised e)).
Proof.
  assert (H1 : [seedEntry] !! 0%nat = Some seedEntry) by reflexivity.
  assert (H2 : field "createdAt" seedEntry
               = VStr (js "2023-11-14T22:13:20.000Z")) by reflexivity.
  split; [exact H1|]. split; [exact H2|].
  split; [vm_compute; reflexivity|].
  exact (seed_stamped_by_createdAt utcHost [seedEntry] (fun _ => 0%Z)
           (fun _ => sampleUuid) 0 seedEntry
           (js "2023-11-14T22:13:20.000Z") H1 H2).
Defined.

(** X24 at [milkInput]. *)
Lemma stored_strings_capped_witness :
  normalizeItem utcHost milkInput sampleNow sampleUuid = Ok milkRecord
  /\ 1 <= length (Item.name milkRecord) <= 80
  /\ length (Item.notes milkRecord) <= 240
  /\ (exists limited, length limited <= 40
        /\ Item.category milkRecord = toLowerCase utcHost limited)
  /\ ((forall s, length (toLowerCase utcHost s) <= length s) ->
      length (Item.category milkRecord) <= 40)
  /\ exists t, Item.expiresOn milkRecord = toISOString utcHost t.
Proof.
  assert (H1 : normalizeItem utcHost milkInput sampleNow sampleUuid
               = Ok milkRecord) by (vm_compute; reflexivity).
  split; [exact H1|].
  exact (stored_strings_capped utcHost milkInput sampleNow sampleUuid
           milkRecord H1).
Defined.

(** X25 at [milkRecord], normalised again a day later. *)
Lemma normalization_fixed_point_witness :
  normalizeItem utcHost milkInput sampleNow sampleUuid = Ok milkRecord
  /\ trim (Item.name milkRecord) = Item.name milkRecord
  /\ toLowerCase utcHost (slice0 40 (trim (Item.category milkRecord)))
     = Item.category milkRecord
  /\ trim (Item.notes milkRecord) = Item.notes milkRecord
  /\ dateParse utcHost (Item.expiresOn milkRecord) = Some 1893456000000%Z
  /\ localMidnight utcHost 1893456000000 = Some 1893456000000%Z
  /\ toISOString utcHost 1893456000000 = Item.expiresOn milkRecord
  /\ dateToISO utcHost laterNow = Ok (js "2023-11-15T22:13:20.000Z")
  /\ normalizeItem utcHost (VObj (itemToObj milkRecord)) laterNow otherUuid
     = Ok {| Item.id := Item.id milkRecord;
             Item.name := Item.name milkRecord;
             Item.category := Item.category milkRecord;
             Item.quantity := Item.quantity milkRecord;
             Item.expiresOn := Item.expiresOn milkRecord;
             Item.notes := Item.notes milkRecord;
             Item.createdAt := Item.createdAt milkRecord;
             Item.updatedAt := js "2023-11-15T22:13:20.000Z" |}.
Proof.
  assert (H1 : normalizeItem utcHost milkInput sampleNow sampleUuid
               = Ok milkRecord) by (vm_compute; reflexivity).
  assert (H2 : trim (Item.name milkRecord) = Item.name milkRecord)
    by (vm_compute; reflexivity).
  assert (H3 : toLowerCase utcHost (slice0 40 (trim (Item.category milkRecord)))
               = Item.category milkRecord) by (vm_compute; reflexivity).
  assert (H4 : trim (Item.notes milkRecord) = Item.notes milkRecord)
    by (vm_compute; reflexivity).
  assert (H5 : dateParse utcHost (Item.expiresOn milkRecord)
               = Some 1893456000000%Z) by (vm_compute; reflexivity).
  assert (H6 : localMidnight utcHost 1893456000000 = Some 1893456000000%Z)
    by (vm_compute; reflexivity).
  assert (H7 : toISOString utcHost 1893456000000 = Item.expiresOn milkRecord)
    by (vm_compute; reflexivity).
  assert (H8 : dateToISO utcHost laterNow = Ok (js "2023-11-15T22:13:20.000Z"))
    by (vm_compute; reflexivity).
  split; [exact H1|]. split; [exact H2|]. split; [exact H3|].
  split; [exact H4|]. split; [exact H5|]. split; [exact H6|].
  split; [exact H7|]. split; [exact H8|].
  exact (normalization_fixed_point utcHost milkInput sampleNow sampleUuid
           milkRecord laterNow otherUuid 1893456000000
           (js "2023-11-15T22:13:20.000Z") H1 H2 H3 H4 H5 H6 H7 H8).
Defined.

(** X26 with a limit of two: the second request of [homeIp] comes from an
    origin the default allow list has not. *)
Lemma refused_origin_is_counted_witness :
  oneRequest !! homeIp = Some {| windowStartMs := 1000; count := 1 |}
  /\ (3000 - 1000 < 60000)%Z
  /\ shopOrigin <> []
  /\ (shopOrigin ∉ DEFAULT_ALLOWED_ORIGINS)
  /\ guards 60000 2 DEFAULT_ALLOWED_ORIGINS homeIp 3000 (Some shopOrigin)
       (js "GET") oneRequest
     = if bool_decide (1 < 2)%Z
       then (Some 403%nat,
             <[homeIp := {| windowStartMs := 1000; count := 1 + 1 |}]>
               oneRequest)
       else (Some 429%nat, oneRequest).
Proof.
  assert (H1 : oneRequest !! homeIp
               = Some {| windowStartMs := 1000; count := 1 |})
    by (vm_compute; reflexivity).
  assert (H2 : (3000 - 1000 < 60000)%Z) by lia.
  assert (H3 : shopOrigin <> []) by discriminate.
  assert (H4 : shopOrigin ∉ DEFAULT_ALLOWED_ORIGINS).
  { apply (bool_decide_unpack _). vm_compute. exact I. }
  split; [exact H1|]. split; [exact H2|]. split; [exact H3|].
  split; [exact H4|].
  exact (refused_origin_is_counted 60000 2 DEFAULT_ALLOWED_ORIGINS homeIp 3000
           shopOrigin (js "GET") oneRequest 1000 1 H1 H2 H3 H4).
Defined.
